(** * express-ts-wizard: the project-creation pipeline

    A shallow embedding of [src/prompts.ts], [src/actions.ts] and
    [src/index.ts].  The program is a sequence of side effects (file system
    calls, subprocesses, terminal output, process exit); it is embedded in a
    small state-and-outcome monad over a world made of a file system and a
    log of the calls performed, each with its result.

    Strings are sequences of 8-bit code units.  Paths follow the POSIX
    flavour of Node's [path] module. *)

From Stdlib Require Import ZArith Ascii String List Bool Lia.
From stdpp Require Import base option list strings gmap.

Set Default Proof Using "Type".
Local Open Scope Z_scope.

(** ** JavaScript strings *)

Module Js.

Definition chars (s : string) : list ascii := list_ascii_of_string s.

(** [!value] on a string: only the empty string is falsy. *)
Definition truthy (s : string) : bool :=
  match s with EmptyString => false | String _ _ => true end.

(** [s.startsWith(p)] *)
Fixpoint startsWith (p s : string) : bool :=
  match p, s with
  | EmptyString, _ => true
  | String a p', String b s' => if decide (a = b) then startsWith p' s' else false
  | String _ _, EmptyString => false
  end.

(** [s.includes(p)], at any position. *)
Fixpoint includes (p s : string) : bool :=
  startsWith p s ||
  match s with
  | EmptyString => false
  | String _ s' => includes p s'
  end.

Fixpoint drop (n : nat) (s : string) : string :=
  match n, s with
  | O, _ => s
  | S n', String _ s' => drop n' s'
  | S _, EmptyString => EmptyString
  end.

Fixpoint concat (l : list string) : string :=
  match l with
  | [] => EmptyString
  | s :: l' => s +:+ concat l'
  end.

(** [l.join(sep)] *)
Fixpoint join (sep : string) (l : list string) : string :=
  match l with
  | [] => EmptyString
  | [s] => s
  | s :: l' => s +:+ sep +:+ join sep l'
  end.

End Js.

(** ** The name validator of [runPrompts]

    [/^[a-z0-9-_]+$/i.test(value)]: a non-unicode, case-insensitive regular
    expression.  A character matches the class when its canonical form is
    the canonical form of a member of the class (ECMA-262, CharacterSetMatcher
    and Canonicalize). *)

Module Regex.

Definition code (c : ascii) : nat := nat_of_ascii c.

(** [Canonicalize(ch)] without the [u] flag: the upper-case form of [ch],
    except that a code unit of 128 or more is never mapped below 128; such
    code units are left as they are here. *)
Definition canonicalize (c : ascii) : ascii :=
  let n := code c in
  if (97 <=? n)%nat && (n <=? 122)%nat then ascii_of_nat (n - 32) else c.

Inductive ClassAtom :=
| Range (lo hi : ascii)
| Single (c : ascii).

(** The members of a class atom. *)
Definition members (a : ClassAtom) : list ascii :=
  match a with
  | Range lo hi => map ascii_of_nat (seq (code lo) (S (code hi) - code lo))
  | Single c => [c]
  end.

(** The class [[a-z0-9-_]]: two ranges, then a literal hyphen and a literal
    underscore (the hyphen after a complete range is an atom of its own). *)
Definition nameClass : list ClassAtom :=
  [Range "a" "z"; Range "0" "9"; Single "-"; Single "_"]%char.

(** Case-insensitive class matching. *)
Definition classMatch_i (cls : list ClassAtom) (ch : ascii) : bool :=
  let cc := canonicalize ch in
  existsb (fun a => existsb (fun m => bool_decide (canonicalize m = cc)) (members a)) cls.

(** [/^C+$/i.test(s)]: without the [m] flag [^] and [$] only match at the
    two ends of the input, so the whole input is one or more class members. *)
Definition test_plus_i (cls : list ClassAtom) (s : string) : bool :=
  match Js.chars s with
  | [] => false
  | cs => forallb (classMatch_i cls) cs
  end.

End Regex.

Definition validate (value : string) : option string :=
  if negb (Js.truthy value) then Some "Project name is required"
  else if negb (Regex.test_plus_i Regex.nameClass value) then
    Some "Only letters, numbers, hyphens and underscores allowed"
  else None.

(** The pattern [[A-Za-z0-9_-]+] as the specification words it. *)
Definition name_char (c : ascii) : Prop :=
  let n := nat_of_ascii c in
  (65 <= n <= 90)%nat \/ (97 <= n <= 122)%nat \/ (48 <= n <= 57)%nat \/
  c = "_"%char \/ c = "-"%char.

Definition matches_name_pattern (s : string) : Prop :=
  s <> EmptyString /\ Forall name_char (Js.chars s).

(** ** Paths: the POSIX flavour of Node's [path]

    A path value is kept as the list of segments of a normalized absolute
    path; [render] gives the string Node would return. *)

Module Path.

Abbreviation path := (list string).

Definition isAbsolute (s : string) : bool := Js.startsWith "/" s.

(** The segments between separators; an empty string has one empty segment. *)
Fixpoint split (s : string) : list string :=
  match s with
  | EmptyString => [EmptyString]
  | String c s' =>
      if decide (c = "/"%char) then EmptyString :: split s'
      else match split s' with
           | seg :: rest => String c seg :: rest
           | [] => [String c EmptyString]
           end
  end.

(** One step of [normalizeString] for an absolute path: empty and [.]
    segments are dropped, [..] removes the segment before it and is
    dropped at the root.  The accumulator is reversed. *)
Definition step (acc : list string) (seg : string) : list string :=
  if decide (seg = "") then acc
  else if decide (seg = ".") then acc
  else if decide (seg = "..") then tail acc
  else seg :: acc.

Definition normalize (segs : list string) : path :=
  rev (fold_left step segs []).

(** [path.resolve(...args)] with [pcwd] the value of [process.cwd()]:
    arguments are taken from the right until an absolute one is met, empty
    ones are skipped, and the working directory is the last resort. *)
Fixpoint resolve_go (rargs : list string) (acc : string) : string :=
  match rargs with
  | [] => acc
  | p :: rest =>
      if negb (Js.truthy p) then resolve_go rest acc
      else
        let acc' := p +:+ "/" +:+ acc in
        if isAbsolute p then acc' else resolve_go rest acc'
  end.

Definition resolve (pcwd : string) (args : list string) : path :=
  normalize (split (resolve_go (rev args ++ [pcwd]) "")).

(** [path.join(base, ...parts)] for an absolute [base]. *)
Definition join (base : path) (parts : list string) : path :=
  normalize (base ++ flat_map split parts).

Definition render (p : path) : string := "/" +:+ Js.join "/" p.

(** A segment that normalization keeps as it is. *)
Definition plain (seg : string) : bool :=
  negb (Js.includes "/" seg) &&
  negb (bool_decide (seg = "")) && negb (bool_decide (seg = ".")) &&
  negb (bool_decide (seg = "..")).

(** [q] is [p] or lies below it. *)
Definition within (p q : path) : Prop := p `prefix_of` q.

End Path.

Import Path.

(** ** [String.prototype.replace] with a global literal pattern *)

Module Replace.

(** [GetSubstitution] for a pattern without capture groups: [$$] is a
    dollar sign, [$&] the matched text, [$`] the text before the match and
    [$'] the text after it; any other [$] stands for itself. *)
Fixpoint getSubstitution (matched before after tpl : string) : string :=
  match tpl with
  | EmptyString => EmptyString
  | String c rest =>
      if decide (c = "$"%char) then
        match rest with
        | String d r =>
            if decide (d = "$"%char) then
              String "$" (getSubstitution matched before after r)
            else if decide (d = "&"%char) then
              matched +:+ getSubstitution matched before after r
            else if decide (d = "`"%char) then
              before +:+ getSubstitution matched before after r
            else if decide (d = "'"%char) then
              after +:+ getSubstitution matched before after r
            else String "$" (String d (getSubstitution matched before after r))
        | EmptyString => String "$" EmptyString
        end
      else String c (getSubstitution matched before after rest)
  end.

(** The scan of [str.replace(/pat/g, repl)] for a literal, non-empty
    [pat]: matches are taken leftmost first and do not overlap.  [pos] is
    the index of the head of [s] in [str]; [skip] counts the characters of
    the current match still to pass. *)
Fixpoint replace_go (pat repl str : string) (pos skip : nat) (s : string) : string :=
  match s with
  | EmptyString => EmptyString
  | String c s' =>
      match skip with
      | S k => replace_go pat repl str (S pos) k s'
      | O =>
          if Js.startsWith pat s then
            getSubstitution pat (String.substring 0 pos str)
              (Js.drop (pos + String.length pat) str) repl
            +:+ replace_go pat repl str (S pos) (String.length pat - 1) s'
          else String c (replace_go pat repl str (S pos) 0 s')
      end
  end.

Definition replace_global (pat repl str : string) : string :=
  replace_go pat repl str 0 0 str.

(** The pieces of [s] between the matches of [pat], in order. *)
Fixpoint pieces_go (pat : string) (skip : nat) (s : string) : list string :=
  match s with
  | EmptyString => [EmptyString]
  | String c s' =>
      match skip with
      | S k => pieces_go pat k s'
      | O =>
          if Js.startsWith pat s then
            EmptyString :: pieces_go pat (String.length pat - 1) s'
          else
            match pieces_go pat 0 s' with
            | seg :: rest => String c seg :: rest
            | [] => [String c EmptyString]
            end
      end
  end.

Definition pieces (pat s : string) : list string := pieces_go pat 0 s.

End Replace.

Definition PLACEHOLDER : string := "{{PROJECT_NAME}}".

(** ** The world: a file system and the log of the calls performed *)

Inductive Node :=
| File (content : string)
| Dir.

Abbreviation FS := (gmap path Node).

(** [TsStrictness] and [UserChoices] of [prompts.ts] *)
Inductive TsStrictness := relaxed | moderate | strict.

Record UserChoices := {
  projectName : string;
  tsStrictness : TsStrictness;
  initGit : bool
}.

Inductive FsOp :=
| OpEnsureDir (p : path)
| OpCopy (src dst : path)
| OpReadFile (p : path)
| OpWriteFile (p : path) (content : string).

Inductive Err :=
| FsError (op : FsOp)
| ExecError (file : string) (args : list string)
| JsError (message : string).

Inductive Ui :=
| ConsoleClear
| ConsoleLog (msg : string)
| ConsoleError (e : Err)
| PIntro (msg : string)
| PCancel (msg : string)
| PNote (msg title : string)
| POutro (msg : string)
| PValidation (msg : string)
| SpinnerStart (msg : string)
| SpinnerStop (msg : string).

(** One entry of the log: a call the process made, with its result. *)
Inductive Event :=
| EvExists (p : path) (found : bool)
| EvFs (op : FsOp) (ok : bool)
| EvExec (file : string) (args : list string) (cwd : path) (ok : bool)
| EvUi (u : Ui).

Record World := {
  fs : FS;
  log : list Event
}.

(** What the user does at the three prompts.  The name prompt is asked again
    after each rejected submission; a session in which every submission is
    rejected ends with the user cancelling. *)
Record Script := {
  nameTries : list string;
  strictnessAnswer : option TsStrictness;
  gitAnswer : option bool
}.

(** The environment of one run. *)
Record Env := {
  process_cwd : string;
  currentDirectory : path;
  (** a file system call may fail for a reason outside the model *)
  io_fault : FsOp -> FS -> bool;
  (** a subprocess: whether it exited with code zero, and the file system it leaves *)
  subprocess : string -> list string -> path -> FS -> bool * FS;
  (** the answers of the user *)
  script : Script;
  (** whether the prompt library substitutes [defaultValue] for an empty
      submission before it validates (releases differ) *)
  defaultBeforeValidate : bool
}.

Global Instance Node_eq_dec : EqDecision Node.
Proof. solve_decision. Defined.
Global Instance TsStrictness_eq_dec : EqDecision TsStrictness.
Proof. solve_decision. Defined.
Global Instance FsOp_eq_dec : EqDecision FsOp.
Proof. solve_decision. Defined.
Global Instance Err_eq_dec : EqDecision Err.
Proof. solve_decision. Defined.
Global Instance Ui_eq_dec : EqDecision Ui.
Proof. solve_decision. Defined.
Global Instance Event_eq_dec : EqDecision Event.
Proof. solve_decision. Defined.

(** ** The file system calls of [fs-extra] *)

Module Fs.

Definition parent (p : path) : path := removelast p.

Definition prefixes (p : path) : list path :=
  map (fun n => take n p) (seq 0 (S (length p))).

Definition isFile (f : FS) (p : path) : bool :=
  match f !! p with Some (File _) => true | _ => false end.

Definition existsSync (f : FS) (p : path) : bool :=
  bool_decide (is_Some (f !! p)).

(** [mkdir -p]: fails when a file is in the way. *)
Definition mkdirs (f : FS) (p : path) : option FS :=
  if existsb (isFile f) (prefixes p) then None
  else Some (foldr (fun q acc => <[q := Dir]> acc) f (prefixes p)).

(** The entries of [f] below [src], written below [dst]. *)
Definition graft (src dst : path) (f : FS) (acc : FS) : FS :=
  foldr (fun (e : path * Node) a =>
           if decide (src `prefix_of` e.1)
           then <[dst ++ drop (length src) e.1 := e.2]> a else a)
        acc (map_to_list f).

(** [fs.copy(src, dst)], overwriting: a file is copied to [dst] (the
    directories above [dst] are created), a directory is copied with all
    it contains. *)
Definition copy (f : FS) (src dst : path) : option FS :=
  match f !! src with
  | None => None
  | Some (File c) =>
      if decide (src = dst) then None
      else match f !! dst with
           | Some Dir => None
           | _ => f' ← mkdirs f (parent dst); Some (<[dst := File c]> f')
           end
  | Some Dir =>
      if decide (src `prefix_of` dst) then None
      else if isFile f dst then None
      else f' ← mkdirs f dst; Some (graft src dst f f')
  end.

Definition readFile (f : FS) (p : path) : option string :=
  match f !! p with Some (File c) => Some c | _ => None end.

Definition writeFile (f : FS) (p : path) (c : string) : option FS :=
  match f !! parent p, f !! p with
  | Some Dir, Some Dir => None
  | Some Dir, _ => Some (<[p := File c]> f)
  | _, _ => None
  end.

(** The effect of a call on the file system, when it succeeds. *)
Definition apply (f : FS) (op : FsOp) : option FS :=
  match op with
  | OpEnsureDir p => mkdirs f p
  | OpCopy src dst => copy f src dst
  | OpReadFile p => _ ← readFile f p; Some f
  | OpWriteFile p c => writeFile f p c
  end.

Definition isWrite (op : FsOp) : bool :=
  match op with OpReadFile _ => false | _ => true end.

End Fs.

(** ** The monad of the process

    A computation ends with a value, with a thrown error, or with the
    process exiting ([process.exit]); the last cannot be caught. *)

Inductive Outcome (A : Type) :=
| Ok (a : A)
| Throw (e : Err)
| Exit (code : Z).
Arguments Ok {A} a.
Arguments Throw {A} e.
Arguments Exit {A} code.

Definition M (A : Type) : Type := World -> Outcome A * World.

Definition ret {A} (a : A) : M A := fun w => (Ok a, w).

Definition bind {A B} (m : M A) (k : A -> M B) : M B :=
  fun w =>
    match m w with
    | (Ok a, w') => k a w'
    | (Throw e, w') => (Throw e, w')
    | (Exit c, w') => (Exit c, w')
    end.

Definition throw {A} (e : Err) : M A := fun w => (Throw e, w).

(** [process.exit(code)] *)
Definition process_exit {A} (code : Z) : M A := fun w => (Exit code, w).

(** [try { m } catch (error) { h error }] *)
Definition try_catch {A} (m : M A) (h : Err -> M A) : M A :=
  fun w =>
    match m w with
    | (Throw e, w') => h e w'
    | r => r
    end.

Definition emit (e : Event) : M unit :=
  fun w => (Ok tt, {| fs := fs w; log := log w ++ [e] |}).

Declare Scope proc_scope.
Delimit Scope proc_scope with proc.
Notation "x <- m ;; k" := (bind m (fun x => k))
  (at level 100, m at next level, right associativity) : proc_scope.
Notation "m ;; k" := (bind m (fun _ => k))
  (at level 100, right associativity) : proc_scope.
Local Open Scope proc_scope.

Definition ui (u : Ui) : M unit := emit (EvUi u).

(** The exit code of the process for the outcome of [main]: a normal end
    gives 0 and an error nobody caught gives 1. *)
Definition exit_code {A} (o : Outcome A) : Z :=
  match o with
  | Ok _ => 0
  | Throw _ => 1
  | Exit c => c
  end.

(** ** The program *)

Section Program.

Variable env : Env.

(** *** Calls to the outside *)

Definition existsSync (p : path) : M bool :=
  fun w =>
    let r := Fs.existsSync (fs w) p in
    (Ok r, {| fs := fs w; log := log w ++ [EvExists p r] |}).

(** An asynchronous [fs-extra] call, awaited: the file system changes only
    when the call succeeds. *)
Definition fsCall (op : FsOp) : M unit :=
  fun w =>
    match (if io_fault env op (fs w) then None else Fs.apply (fs w) op) with
    | Some f' => (Ok tt, {| fs := f'; log := log w ++ [EvFs op true] |})
    | None => (Throw (FsError op), {| fs := fs w; log := log w ++ [EvFs op false] |})
    end.

Definition ensureDir (p : path) : M unit := fsCall (OpEnsureDir p).
Definition copy (src dst : path) : M unit := fsCall (OpCopy src dst).
Definition writeFile (p : path) (c : string) : M unit := fsCall (OpWriteFile p c).

Definition readFile (p : path) : M string :=
  fun w =>
    match (if io_fault env (OpReadFile p) (fs w) then None else Fs.readFile (fs w) p) with
    | Some c => (Ok c, {| fs := fs w; log := log w ++ [EvFs (OpReadFile p) true] |})
    | None => (Throw (FsError (OpReadFile p)),
               {| fs := fs w; log := log w ++ [EvFs (OpReadFile p) false] |})
    end.

(** [await execa(file, args, { cwd })]: rejects when the process cannot be
    started or exits with a code other than zero. *)
Definition execa (file : string) (args : list string) (cwd : path) : M unit :=
  fun w =>
    let '(ok, f') := subprocess env file args cwd (fs w) in
    let w' := {| fs := f'; log := log w ++ [EvExec file args cwd ok] |} in
    if ok then (Ok tt, w') else (Throw (ExecError file args), w').

(** *** [actions.ts] *)

Definition getTemplatesDirectory : M path :=
  let productionPath := Path.join (currentDirectory env) ["templates"] in
  let developmentPath := Path.join (currentDirectory env) [".."; "src"; "templates"] in
  found <- existsSync productionPath ;;
  if found then ret productionPath else ret developmentPath.

Definition strictnessName (t : TsStrictness) : string :=
  match t with
  | relaxed => "relaxed"
  | moderate => "moderate"
  | strict => "strict"
  end.

Definition tsconfigSourcePath (templatesDirectory : path) (t : TsStrictness) : path :=
  Path.join templatesDirectory ["tsconfig"; strictnessName t +:+ ".json"].

Definition copyProjectFiles (templatesDirectory projectPath : path)
    (projectName : string) (tsStrictness : TsStrictness) : M unit :=
  ensureDir (Path.join projectPath ["src"]) ;;
  let sourceIndexPath := Path.join templatesDirectory ["base"; "src"; "index.ts"] in
  copy sourceIndexPath (Path.join projectPath ["src"; "index.ts"]) ;;
  let gitignoreSourcePath := Path.join templatesDirectory ["base"; "gitignore"] in
  copy gitignoreSourcePath (Path.join projectPath [".gitignore"]) ;;
  packageTemplateContent <-
    readFile (Path.join templatesDirectory ["base"; "package.template.json"]) ;;
  let packageJsonContent :=
    Replace.replace_global PLACEHOLDER projectName packageTemplateContent in
  writeFile (Path.join projectPath ["package.json"]) packageJsonContent ;;
  copy (tsconfigSourcePath templatesDirectory tsStrictness)
       (Path.join projectPath ["tsconfig.json"]).

Definition installDependencies (projectPath : path) : M unit :=
  execa "npm" ["install"] projectPath ;;
  let lockFilePath := Path.join projectPath ["package-lock.json"] in
  found <- existsSync lockFilePath ;;
  if negb found then throw (JsError "package-lock.json was not generated")
  else ret tt.

Definition initializeGitRepository (projectPath : path) : M unit :=
  execa "git" ["init"] projectPath ;;
  execa "git" ["add"; "."] projectPath ;;
  execa "git" ["commit"; "-m"; "Initial commit from express-ts-wizard"] projectPath.

Definition dq : string := String "034"%char EmptyString.

Definition projectPathOf (projectName : string) : path :=
  Path.resolve (process_cwd env) [process_cwd env; projectName].

Definition createProject (choices : UserChoices) : M unit :=
  let projectName := projectName choices in
  let tsStrictness := tsStrictness choices in
  let initGit := initGit choices in
  let projectPath := projectPathOf projectName in
  templatesDirectory <- getTemplatesDirectory ;;
  found <- existsSync projectPath ;;
  (if found then
     ui (PCancel ("Directory " +:+ dq +:+ projectName +:+ dq +:+ " already exists.")) ;;
     process_exit 1
   else ret tt) ;;
  ui (SpinnerStart "Creating project structure...") ;;
  try_catch
    (copyProjectFiles templatesDirectory projectPath projectName tsStrictness ;;
     ui (SpinnerStop "Project structure created ✓"))
    (fun error => ui (SpinnerStop "Error creating structure") ;; throw error) ;;
  ui (SpinnerStart "Installing dependencies...") ;;
  try_catch
    (installDependencies projectPath ;;
     ui (SpinnerStop "Dependencies installed ✓"))
    (fun error => ui (SpinnerStop "Error installing dependencies") ;; throw error) ;;
  if initGit then
    ui (SpinnerStart "Initializing Git...") ;;
    try_catch
      (initializeGitRepository projectPath ;;
       ui (SpinnerStop "Git initialized ✓"))
      (fun _ => ui (SpinnerStop "Error initializing Git (may not be installed)"))
  else ret tt.

Definition getTsStrictnessDescription (level : TsStrictness) : string :=
  match level with
  | relaxed => "Relaxed (strict: false)"
  | moderate => "Moderate (strict: true)"
  | strict => "Strict (maximum options)"
  end.

(** *** [prompts.ts]

    The prompt library is outside the repository.  Its contract as used
    here: [text] asks again while [validate] returns a message and gives
    the accepted value or the cancel mark; [select] gives one of the option
    values; [confirm] gives a boolean; [group] asks in order and calls
    [onCancel] as soon as an answer is the cancel mark. *)

Inductive Answer (A : Type) :=
| Value (a : A)
| Cancelled.
Arguments Value {A} a.
Arguments Cancelled {A}.

Definition defaultValue : string := "my-express-app".

Fixpoint text (validate : string -> option string) (tries : list string)
    : M (Answer string) :=
  match tries with
  | [] => ret Cancelled
  | typed :: rest =>
      let value :=
        if defaultBeforeValidate env && negb (Js.truthy typed)
        then defaultValue else typed in
      match validate value with
      | Some problem => ui (PValidation problem) ;; text validate rest
      | None => ret (Value value)
      end
  end.

Definition select (a : option TsStrictness) : M (Answer TsStrictness) :=
  ret (match a with Some v => Value v | None => Cancelled end).

Definition confirm (a : option bool) : M (Answer bool) :=
  ret (match a with Some v => Value v | None => Cancelled end).

Definition onCancel {A} : M A :=
  ui (PCancel "Operation cancelled.") ;; process_exit 0.

(** One entry of [p.group]. *)
Definition asked {A} (prompt : M (Answer A)) : M A :=
  r <- prompt ;;
  match r with
  | Value a => ret a
  | Cancelled => onCancel
  end.

Definition runPrompts : M (option UserChoices) :=
  ui (PIntro " create-express-ts ") ;;
  name <- asked (text validate (nameTries (script env))) ;;
  level <- asked (select (strictnessAnswer (script env))) ;;
  git <- asked (confirm (gitAnswer (script env))) ;;
  ret (Some {| projectName := name; tsStrictness := level; initGit := git |}).

(** *** [index.ts] *)

Definition nl : string := String "010"%char EmptyString.

(** Terminal colours change no text and are left out. *)
Definition displaySuccessMessage (projectName strictnessDescription : string) : M unit :=
  let nextSteps :=
    ["cd " +:+ projectName;
     "npm run dev        → Start server with hot-reload";
     "npm run build      → Compile to JavaScript";
     "npm run start      → Run the compiled version";
     "npm run type-check → Check types without compiling";
     "";
     "Tip: Use 'npm ci' for deterministic installs (recommended in CI/CD)"] in
  ui (PNote (Js.join nl nextSteps) "Next steps") ;;
  ui (POutro ("✔" +:+ " Project " +:+ projectName +:+
              " created with TypeScript " +:+ strictnessDescription)).

Definition main : M unit :=
  ui ConsoleClear ;;
  choices <- runPrompts ;;
  match choices with
  | None => process_exit 0
  | Some choices =>
      ui (ConsoleLog "") ;;
      try_catch
        (createProject choices ;;
         let strictnessDescription := getTsStrictnessDescription (tsStrictness choices) in
         displaySuccessMessage (projectName choices) strictnessDescription)
        (fun error =>
           ui (PCancel "Error creating project") ;;
           ui (ConsoleError error) ;;
           process_exit 1)
  end.

End Program.

Arguments Value {A} a.
Arguments Cancelled {A}.

(** ** Observing a run *)

Definition outcome_of {A} (m : M A) (w : World) : Outcome A := (m w).1.

Definition fs_after {A} (m : M A) (w : World) : FS := fs (m w).2.

(** The calls made by [m] when started in [w], in order. *)
Definition events_of {A} (m : M A) (w : World) : list Event :=
  drop (length (log w)) (log (m w).2).

Definition is_ui (e : Event) : bool :=
  match e with EvUi _ => true | _ => false end.

(** A call that can change the file system of its own. *)
Definition is_write (e : Event) : bool :=
  match e with EvFs op _ => Fs.isWrite op | _ => false end.

Definition is_exec (e : Event) : bool :=
  match e with EvExec _ _ _ _ => true | _ => false end.

Definition is_npm (e : Event) : bool :=
  match e with EvExec file _ _ _ => bool_decide (file = "npm") | _ => false end.

Definition is_git (e : Event) : bool :=
  match e with EvExec file _ _ _ => bool_decide (file = "git") | _ => false end.

(** The path a writing call writes to. *)
Definition write_target (op : FsOp) : option path :=
  match op with
  | OpEnsureDir p => Some p
  | OpCopy _ dst => Some dst
  | OpWriteFile p _ => Some p
  | OpReadFile _ => None
  end.

(** The templates directory [getTemplatesDirectory] returns in a file system. *)
Definition templatesDirectoryIn (env : Env) (f : FS) : path :=
  if Fs.existsSync f (Path.join (currentDirectory env) ["templates"])
  then Path.join (currentDirectory env) ["templates"]
  else Path.join (currentDirectory env) [".."; "src"; "templates"].

(** The calls of a materialization in which every call succeeds; [tpl] is
    the text read from the manifest template. *)
Definition materializeCalls (T P : path) (name : string) (t : TsStrictness)
    (tpl : string) : list FsOp :=
  [ OpEnsureDir (Path.join P ["src"]);
    OpCopy (Path.join T ["base"; "src"; "index.ts"]) (Path.join P ["src"; "index.ts"]);
    OpCopy (Path.join T ["base"; "gitignore"]) (Path.join P [".gitignore"]);
    OpReadFile (Path.join T ["base"; "package.template.json"]);
    OpWriteFile (Path.join P ["package.json"])
                (Replace.replace_global PLACEHOLDER name tpl);
    OpCopy (tsconfigSourcePath T t) (Path.join P ["tsconfig.json"]) ].

(** Validation found the target absent and every call of the
    materialization succeeded, in this order, within [evs]. *)
Definition materialized_in (env : Env) (c : UserChoices) (evs : list Event) : Prop :=
  exists T tpl,
    (EvExists (projectPathOf env (projectName c)) false ::
     map (fun op => EvFs op true)
       (materializeCalls T (projectPathOf env (projectName c))
          (projectName c) (tsStrictness c) tpl))
    `sublist_of` evs.

(** The install subprocess exited with code zero and the lock file was then
    found, in this order, within [evs]. *)
Definition installed_in (env : Env) (c : UserChoices) (evs : list Event) : Prop :=
  let P := projectPathOf env (projectName c) in
  [ EvExec "npm" ["install"] P true;
    EvExists (Path.join P ["package-lock.json"]) true ] `sublist_of` evs.

Definition gitWarning : Event :=
  EvUi (SpinnerStop "Error initializing Git (may not be installed)").

(** The name the name prompt accepts, if any, for the answers of the user. *)
Definition acceptedName (env : Env) : option string :=
  head (filter (fun s => validate s = None)
          (map (fun typed =>
                  if defaultBeforeValidate env && negb (Js.truthy typed)
                  then defaultValue else typed)
               (nameTries (script env)))).

(** The user cancels at one of the three prompts. *)
Definition user_cancels (env : Env) : Prop :=
  acceptedName env = None \/
  strictnessAnswer (script env) = None \/
  gitAnswer (script env) = None.

(** The record the prompt stage hands over, if the user does not cancel. *)
Definition choicesOf (env : Env) : option UserChoices :=
  match acceptedName env, strictnessAnswer (script env), gitAnswer (script env) with
  | Some n, Some t, Some g =>
      Some {| projectName := n; tsStrictness := t; initGit := g |}
  | _, _, _ => None
  end.

(** A file system shaped as a tree: what is above an entry is a directory. *)
Definition tree_shaped (f : FS) : Prop :=
  forall (p : path) (x : string), is_Some (f !! (p ++ [x])) -> f !! p = Some Dir.

(** ** The shapes of a run

    Each stage of [createProject] leaves one of a few sequences of calls in
    the log; the run of [createProject] is made of them. *)

Definition okCalls (ops : list FsOp) : list Event :=
  map (fun op => EvFs op true) ops.

(** [copyProjectFiles]: every call succeeds, or the calls before the [k]-th
    succeed and that one fails. *)
Inductive Materialized (T P : path) (name : string) (t : TsStrictness)
  : Outcome unit -> list Event -> Prop :=
| Mat_ok tpl :
    Materialized T P name t (Ok tt) (okCalls (materializeCalls T P name t tpl))
| Mat_fail tpl k op :
    materializeCalls T P name t tpl !! k = Some op ->
    Materialized T P name t (Throw (FsError op))
      (okCalls (take k (materializeCalls T P name t tpl)) ++ [EvFs op false]).

(** [installDependencies] *)
Inductive Installed (P : path) : Outcome unit -> list Event -> Prop :=
| Inst_ok :
    Installed P (Ok tt)
      [EvExec "npm" ["install"] P true;
       EvExists (Path.join P ["package-lock.json"]) true]
| Inst_exit :
    Installed P (Throw (ExecError "npm" ["install"]))
      [EvExec "npm" ["install"] P false]
| Inst_nolock :
    Installed P (Throw (JsError "package-lock.json was not generated"))
      [EvExec "npm" ["install"] P true;
       EvExists (Path.join P ["package-lock.json"]) false].

Definition gitCommit : list string :=
  ["commit"; "-m"; "Initial commit from express-ts-wizard"].

(** [initializeGitRepository] *)
Inductive GitInitialized (P : path) : Outcome unit -> list Event -> Prop :=
| Git_ok :
    GitInitialized P (Ok tt)
      [EvExec "git" ["init"] P true; EvExec "git" ["add"; "."] P true;
       EvExec "git" gitCommit P true]
| Git_init :
    GitInitialized P (Throw (ExecError "git" ["init"]))
      [EvExec "git" ["init"] P false]
| Git_add :
    GitInitialized P (Throw (ExecError "git" ["add"; "."]))
      [EvExec "git" ["init"] P true; EvExec "git" ["add"; "."] P false]
| Git_commit :
    GitInitialized P (Throw (ExecError "git" gitCommit))
      [EvExec "git" ["init"] P true; EvExec "git" ["add"; "."] P true;
       EvExec "git" gitCommit P false].

Definition existsMessage (name : string) : Event :=
  EvUi (PCancel ("Directory " +:+ dq +:+ name +:+ dq +:+ " already exists.")).

(** The message the spinner stops with after the git stage. *)
Definition gitStop (o : Outcome unit) : Event :=
  match o with
  | Ok _ => EvUi (SpinnerStop "Git initialized ✓")
  | _ => gitWarning
  end.

(** [createProject] started in the file system [f]. *)
Inductive Created (env : Env) (c : UserChoices) (f : FS)
  : Outcome unit -> list Event -> Prop :=
| Created_exists :
    let P := projectPathOf env (projectName c) in
    Fs.existsSync f P = true ->
    Created env c f (Exit 1)
      [EvExists (Path.join (currentDirectory env) ["templates"])
         (Fs.existsSync f (Path.join (currentDirectory env) ["templates"]));
       EvExists P true;
       existsMessage (projectName c)]
| Created_not_materialized e mevs :
    let P := projectPathOf env (projectName c) in
    Fs.existsSync f P = false ->
    Materialized (templatesDirectoryIn env f) P (projectName c) (tsStrictness c)
      (Throw e) mevs ->
    Created env c f (Throw e)
      (EvExists (Path.join (currentDirectory env) ["templates"])
         (Fs.existsSync f (Path.join (currentDirectory env) ["templates"])) ::
       EvExists P false ::
       EvUi (SpinnerStart "Creating project structure...") ::
       mevs ++
       [EvUi (SpinnerStop "Error creating structure")])
| Created_not_installed e mevs ievs :
    let P := projectPathOf env (projectName c) in
    Fs.existsSync f P = false ->
    Materialized (templatesDirectoryIn env f) P (projectName c) (tsStrictness c)
      (Ok tt) mevs ->
    Installed P (Throw e) ievs ->
    Created env c f (Throw e)
      (EvExists (Path.join (currentDirectory env) ["templates"])
         (Fs.existsSync f (Path.join (currentDirectory env) ["templates"])) ::
       EvExists P false ::
       EvUi (SpinnerStart "Creating project structure...") ::
       mevs ++
       EvUi (SpinnerStop "Project structure created ✓") ::
       EvUi (SpinnerStart "Installing dependencies...") ::
       ievs ++
       [EvUi (SpinnerStop "Error installing dependencies")])
| Created_without_git mevs ievs :
    let P := projectPathOf env (projectName c) in
    Fs.existsSync f P = false ->
    Materialized (templatesDirectoryIn env f) P (projectName c) (tsStrictness c)
      (Ok tt) mevs ->
    Installed P (Ok tt) ievs ->
    initGit c = false ->
    Created env c f (Ok tt)
      (EvExists (Path.join (currentDirectory env) ["templates"])
         (Fs.existsSync f (Path.join (currentDirectory env) ["templates"])) ::
       EvExists P false ::
       EvUi (SpinnerStart "Creating project structure...") ::
       mevs ++
       EvUi (SpinnerStop "Project structure created ✓") ::
       EvUi (SpinnerStart "Installing dependencies...") ::
       ievs ++
       [EvUi (SpinnerStop "Dependencies installed ✓")])
| Created_with_git mevs ievs o gevs :
    let P := projectPathOf env (projectName c) in
    Fs.existsSync f P = false ->
    Materialized (templatesDirectoryIn env f) P (projectName c) (tsStrictness c)
      (Ok tt) mevs ->
    Installed P (Ok tt) ievs ->
    initGit c = true ->
    GitInitialized P o gevs ->
    Created env c f (Ok tt)
      (EvExists (Path.join (currentDirectory env) ["templates"])
         (Fs.existsSync f (Path.join (currentDirectory env) ["templates"])) ::
       EvExists P false ::
       EvUi (SpinnerStart "Creating project structure...") ::
       mevs ++
       EvUi (SpinnerStop "Project structure created ✓") ::
       EvUi (SpinnerStart "Installing dependencies...") ::
       ievs ++
       EvUi (SpinnerStop "Dependencies installed ✓") ::
       EvUi (SpinnerStart "Initializing Git...") ::
       gevs ++ [gitStop o]).

(** A computation whose result and calls depend on the file system it
    starts in and not on what the log already holds. *)
Definition framed {A} (m : M A) : Prop :=
  forall f l,
    m {| fs := f; log := l |} =
    ((m {| fs := f; log := [] |}).1,
     {| fs := fs (m {| fs := f; log := [] |}).2;
        log := l ++ log (m {| fs := f; log := [] |}).2 |}).


(** What [main] makes of the outcome of [createProject]. *)
Definition mainOutcome (o : Outcome unit) : Outcome unit :=
  match o with
  | Ok _ => Ok tt
  | Throw _ => Exit 1
  | Exit k => Exit k
  end.

Definition successMessage (c : UserChoices) : string :=
  "✔" +:+ " Project " +:+ projectName c +:+ " created with TypeScript " +:+
  getTsStrictnessDescription (tsStrictness c).

(** What [main] prints after [createProject] ended with [o]. *)
Definition mainTail (c : UserChoices) (o : Outcome unit) : list Event :=
  match o with
  | Ok _ =>
      events_of (displaySuccessMessage (projectName c)
                   (getTsStrictnessDescription (tsStrictness c)))
                {| fs := ∅; log := [] |}
  | Throw e => [EvUi (PCancel "Error creating project"); EvUi (ConsoleError e)]
  | Exit _ => []
  end.

(** The only double opening braces of a manifest template are those of its
    placeholders. *)
Definition braces_open_placeholders_only (tpl : string) : Prop :=
  Forall (fun seg => Js.includes "{{" seg = false) (Replace.pieces PLACEHOLDER tpl).

(** The file system [f] with a project at [P] materialized up to its
    configuration file, and with it. *)
Definition partialTree (P : path) (idx ign man : string) (f : FS) : FS :=
  <[P ++ ["package.json"] := File man]>
    (<[P ++ [".gitignore"] := File ign]>
       (<[P ++ ["src"; "index.ts"] := File idx]>
          (<[P ++ ["src"] := Dir]> (<[P := Dir]> f)))).

Definition targetTree (P : path) (idx ign man cfg : string) (f : FS) : FS :=
  <[P ++ ["tsconfig.json"] := File cfg]> (partialTree P idx ign man f).

(** The entries of a materialized project. *)
Definition targetEntries (P : path) (idx ign man cfg : string) : list (path * Node) :=
  [ (P, Dir); (P ++ ["src"], Dir);
    (P ++ ["src"; "index.ts"], File idx);
    (P ++ [".gitignore"], File ign);
    (P ++ ["package.json"], File man);
    (P ++ ["tsconfig.json"], File cfg) ].

(** The templates every materialization reads are files of [f], with these
    contents. *)
Record BaseTemplatesIn (T : path) (f : FS) (idx ign tpl : string) : Prop := {
  base_index : f !! Path.join T ["base"; "src"; "index.ts"] = Some (File idx);
  base_gitignore : f !! Path.join T ["base"; "gitignore"] = Some (File ign);
  base_manifest :
    f !! Path.join T ["base"; "package.template.json"] = Some (File tpl)
}.

(** The same, with the configuration template of the level [t]. *)
Record TemplatesIn (T : path) (t : TsStrictness) (f : FS)
    (idx ign tpl cfg : string) : Prop := {
  index_template : f !! Path.join T ["base"; "src"; "index.ts"] = Some (File idx);
  gitignore_template : f !! Path.join T ["base"; "gitignore"] = Some (File ign);
  manifest_template :
    f !! Path.join T ["base"; "package.template.json"] = Some (File tpl);
  tsconfig_template : f !! tsconfigSourcePath T t = Some (File cfg)
}.

(** Every prefix of [p] is a directory of [f]. *)
Definition dirs (f : FS) (p : path) : Prop :=
  forall q, q `prefix_of` p -> f !! q = Some Dir.

(** [tree_shaped], decided. *)
Definition tree_shapedb (f : FS) : bool :=
  bool_decide (map_Forall (fun (k : path) (_ : Node) =>
                             k = [] \/ f !! Fs.parent k = Some Dir) f).

(** ** A sample installation

    The tool is installed in [/opt/tool/dist] and run from [/home/u]. *)

Module Sample.

Definition templates : path := ["opt"; "tool"; "dist"; "templates"].

(** The manifest template of the test suite. *)
Definition manifestTemplate : string :=
Js.concat ["{"; dq; "name"; dq; ": "; dq; "{{PROJECT_NAME}}"; dq; ", ";
           dq; "version"; dq; ": "; dq; "1.0.0"; dq; "}"].

Definition disk : FS :=
list_to_map
  [ ([], Dir); (["opt"], Dir); (["opt"; "tool"], Dir);
    (["opt"; "tool"; "dist"], Dir); (templates, Dir);
    (templates ++ ["base"], Dir); (templates ++ ["base"; "src"], Dir);
    (templates ++ ["base"; "src"; "index.ts"], File "import express");
    (templates ++ ["base"; "gitignore"], File "node_modules");
    (templates ++ ["base"; "package.template.json"], File manifestTemplate);
    (templates ++ ["tsconfig"], Dir);
    (templates ++ ["tsconfig"; "relaxed.json"], File "strict: false");
    (templates ++ ["tsconfig"; "moderate.json"], File "strict: true");
    (templates ++ ["tsconfig"; "strict.json"], File "strict: true, more");
    (["home"], Dir); (["home"; "u"], Dir) ].

(** The same disk with [/home/u/demo-app] taken. *)
Definition diskTaken : FS := <[["home"; "u"; "demo-app"] := Dir]> disk.

(** [npm] exits with code zero or not and writes the lock file or not; [git]
  works or not. *)
Definition tools (npmExitsZero writesLock gitWorks : bool)
  (file : string) (args : list string) (cwd : path) (f : FS) : bool * FS :=
if bool_decide (file = "npm") then
  (npmExitsZero,
   if writesLock then <[cwd ++ ["package-lock.json"] := File "{}"]> f else f)
else (gitWorks, f).

Definition answers (git : bool) : Script :=
{| nameTries := ["my app"; "demo-app"];
   strictnessAnswer := Some strict;
   gitAnswer := Some git |}.

Definition cancelled : Script :=
{| nameTries := ["my app"; "demo-app"];
   strictnessAnswer := None;
   gitAnswer := Some true |}.

Definition envWith (npmExitsZero writesLock gitWorks : bool) (s : Script) : Env :=
{| process_cwd := "/home/u";
   currentDirectory := ["opt"; "tool"; "dist"];
   io_fault := fun _ _ => false;
   subprocess := tools npmExitsZero writesLock gitWorks;
   script := s;
   defaultBeforeValidate := false |}.

Definition choices (git : bool) : UserChoices :=
{| projectName := "demo-app"; tsStrictness := strict; initGit := git |}.

Definition start (f : FS) : World := {| fs := f; log := [] |}.

End Sample.

(** ** Further observations on a run *)

(** The spinner of [createProject] is started only when it is idle and
    stopped only when it spins; [spinning] is its state before [evs], and it
    is idle after them. *)
Fixpoint spinnerAlternates (spinning : bool) (evs : list Event) : bool :=
  match evs with
  | [] => negb spinning
  | EvUi (SpinnerStart _) :: rest => negb spinning && spinnerAlternates true rest
  | EvUi (SpinnerStop _) :: rest => spinning && spinnerAlternates false rest
  | _ :: rest => spinnerAlternates spinning rest
  end.

(** A file system call or a subprocess that failed. *)
Definition is_failed_call (e : Event) : bool :=
  match e with
  | EvFs _ ok => negb ok
  | EvExec _ _ _ ok => negb ok
  | _ => false
  end.

(** The four commands of [installDependencies] and
    [initializeGitRepository]. *)
Definition knownCommands : list (string * list string) :=
  [ ("npm", ["install"]); ("git", ["init"]); ("git", ["add"; "."]);
    ("git", gitCommit) ].

(** The path a call reads from. *)
Definition read_source (op : FsOp) : option path :=
  match op with
  | OpCopy src _ => Some src
  | OpReadFile p => Some p
  | _ => None
  end.

(** The last thing on the terminal after [main] ran [createProject] with
    the outcome [o]. *)
Definition lastEventOf (c : UserChoices) (o : Outcome unit) : Event :=
  match o with
  | Ok _ => EvUi (POutro (successMessage c))
  | Throw e => EvUi (ConsoleError e)
  | Exit _ => existsMessage (projectName c)
  end.

(** The letters of ASCII in upper and in lower case. *)
Definition asciiUpper (c : ascii) : ascii :=
  let n := nat_of_ascii c in
  if (97 <=? n)%nat && (n <=? 122)%nat then ascii_of_nat (n - 32) else c.

Definition asciiLower (c : ascii) : ascii :=
  let n := nat_of_ascii c in
  if (65 <=? n)%nat && (n <=? 90)%nat then ascii_of_nat (n + 32) else c.

Fixpoint mapChars (f : ascii -> ascii) (s : string) : string :=
  match s with
  | EmptyString => EmptyString
  | String c s' => String (f c) (mapChars f s')
  end.

(** A disk with the working directory of the sample installation and no
    templates. *)
Definition diskWithoutTemplates : FS :=
  list_to_map
    [ ([], Dir); (["opt"], Dir); (["opt"; "tool"], Dir);
      (["opt"; "tool"; "dist"], Dir); (["home"], Dir); (["home"; "u"], Dir) ].

(** The sample installation run from its sources, in [/opt/tool/src]. *)
Definition envFromSources : Env :=
  {| process_cwd := "/home/u";
     currentDirectory := ["opt"; "tool"; "src"];
     io_fault := fun _ _ => false;
     subprocess := Sample.tools true true true;
     script := Sample.answers true;
     defaultBeforeValidate := false |}.

(** * Proofs *)

(** ** Frames *)

Create HintDb frame.

Lemma framed_ret {A} (a : A) : framed (ret a).
Proof. by intros f l; cbn; rewrite app_nil_r. Qed.

Lemma framed_throw {A} e : framed (@throw A e).
Proof. by intros f l; cbn; rewrite app_nil_r. Qed.

Lemma framed_process_exit {A} k : framed (@process_exit A k).
Proof. by intros f l; cbn; rewrite app_nil_r. Qed.

Lemma framed_emit e : framed (emit e).
Proof. by intros f l. Qed.

Lemma framed_ui u : framed (ui u).
Proof. apply framed_emit. Qed.

Lemma framed_bind {A B} (m : M A) (k : A -> M B) :
  framed m -> (forall a, framed (k a)) -> framed (bind m k).
Proof.
  intros Hm Hk f l. unfold bind. rewrite (Hm f l).
  destruct (m {| fs := f; log := [] |}) as [[a|e|n] [f1 l1]]; cbn; try done.
  rewrite (Hk a f1 (l ++ l1)), (Hk a f1 l1). cbn. by rewrite app_assoc.
Qed.

Lemma framed_try_catch {A} (m : M A) (h : Err -> M A) :
  framed m -> (forall e, framed (h e)) -> framed (try_catch m h).
Proof.
  intros Hm Hh f l. unfold try_catch. rewrite (Hm f l).
  destruct (m {| fs := f; log := [] |}) as [[a|e|n] [f1 l1]]; cbn; try done.
  rewrite (Hh e f1 (l ++ l1)), (Hh e f1 l1). cbn. by rewrite app_assoc.
Qed.

Lemma framed_existsSync p : framed (existsSync p).
Proof. by intros f l. Qed.

Lemma framed_fsCall env op : framed (fsCall env op).
Proof.
  intros f l. unfold fsCall. cbn.
  by destruct (if io_fault env op f then None else Fs.apply f op).
Qed.

Lemma framed_readFile env p : framed (readFile env p).
Proof.
  intros f l. unfold readFile. cbn.
  by destruct (if io_fault env (OpReadFile p) f then None else Fs.readFile f p).
Qed.

Lemma framed_execa env file args cwd : framed (execa env file args cwd).
Proof.
  intros f l. unfold execa. cbn.
  by destruct (subprocess env file args cwd f) as [[] f'].
Qed.

Lemma framed_if {A} (b : bool) (m1 m2 : M A) :
  framed m1 -> framed m2 -> framed (if b then m1 else m2).
Proof. by destruct b. Qed.

#[local] Hint Resolve framed_ret framed_throw framed_process_exit framed_emit
  framed_ui framed_existsSync framed_fsCall framed_readFile framed_execa
  framed_if : frame.
#[local] Hint Extern 2 (framed (bind _ _)) =>
  apply framed_bind; [|intros ?] : frame.
#[local] Hint Extern 2 (framed (try_catch _ _)) =>
  apply framed_try_catch; [|intros ?] : frame.

Lemma framed_copyProjectFiles env T P name t :
  framed (copyProjectFiles env T P name t).
Proof.
  unfold copyProjectFiles, ensureDir, copy, writeFile. auto 20 with frame.
Qed.

Lemma framed_installDependencies env P : framed (installDependencies env P).
Proof. unfold installDependencies. auto 20 with frame. Qed.

Lemma framed_initializeGitRepository env P :
  framed (initializeGitRepository env P).
Proof. unfold initializeGitRepository. auto 20 with frame. Qed.

#[local] Hint Resolve framed_copyProjectFiles framed_installDependencies
  framed_initializeGitRepository : frame.

Lemma framed_createProject env c : framed (createProject env c).
Proof.
  unfold createProject, getTemplatesDirectory. auto 30 with frame.
Qed.

(** What a framed computation does in a world, from what it does with an
    empty log. *)
Lemma framed_run {A} (m : M A) w :
  framed m ->
  outcome_of m w = outcome_of m {| fs := fs w; log := [] |} /\
  fs_after m w = fs_after m {| fs := fs w; log := [] |} /\
  events_of m w = events_of m {| fs := fs w; log := [] |}.
Proof.
  intros Hm. destruct w as [f l]. unfold outcome_of, fs_after, events_of.
  rewrite (Hm f l). cbn. by rewrite drop_app_length.
Qed.

(** ** The stages *)

Ltac unfold_calls :=
  unfold ensureDir, copy, writeFile, readFile, fsCall, execa, existsSync, ui,
    emit, bind, try_catch, ret, throw, process_exit.

Ltac call_step :=
  match goal with
  | |- context [io_fault ?e ?op ?f] => destruct (io_fault e op f)
  | |- context [Fs.apply ?f ?op] => destruct (Fs.apply f op)
  | |- context [Fs.readFile ?f ?p] => destruct (Fs.readFile f p)
  | |- context [subprocess ?e ?a ?b ?c ?f] =>
      let ok := fresh "ok" in
      destruct (subprocess e a b c f) as [ok ?]; destruct ok
  end;
  cbn beta iota zeta delta [fs log fst snd negb].

Ltac run_calls :=
  unfold_calls; cbn beta iota zeta delta [fs log fst snd negb];
  repeat call_step.

Ltac give_run :=
  eexists _, _, _; split;
  [ rewrite <- ?app_assoc; cbn [app]; reflexivity | ].

Lemma copyProjectFiles_run env T P name t w :
  exists o f' evs,
    copyProjectFiles env T P name t w = (o, {| fs := f'; log := log w ++ evs |}) /\
    Materialized T P name t o evs.
Proof.
  unfold copyProjectFiles. run_calls; give_run.
  all: first
    [ exact (Mat_ok T P name t _)
    | exact (Mat_fail T P name t EmptyString 0 _ eq_refl)
    | exact (Mat_fail T P name t EmptyString 1 _ eq_refl)
    | exact (Mat_fail T P name t EmptyString 2 _ eq_refl)
    | exact (Mat_fail T P name t EmptyString 3 _ eq_refl)
    | exact (Mat_fail T P name t _ 4 _ eq_refl)
    | exact (Mat_fail T P name t _ 5 _ eq_refl) ].
Qed.

Lemma installDependencies_run env P w :
  exists o f' evs,
    installDependencies env P w = (o, {| fs := f'; log := log w ++ evs |}) /\
    Installed P o evs.
Proof.
  unfold installDependencies. run_calls.
  2: give_run; constructor.
  match goal with |- context [Fs.existsSync ?f ?p] => destruct (Fs.existsSync f p) end;
    cbn; give_run; constructor.
Qed.

Lemma initializeGitRepository_run env P w :
  exists o f' evs,
    initializeGitRepository env P w = (o, {| fs := f'; log := log w ++ evs |}) /\
    GitInitialized P o evs.
Proof.
  unfold initializeGitRepository. run_calls; give_run; constructor.
Qed.

Lemma Materialized_outcome T P name t o evs :
  Materialized T P name t o evs -> forall k, o <> Exit k.
Proof. by destruct 1. Qed.

Lemma Installed_outcome P o evs : Installed P o evs -> forall k, o <> Exit k.
Proof. by destruct 1. Qed.

Lemma GitInitialized_outcome P o evs :
  GitInitialized P o evs -> forall k, o <> Exit k.
Proof. by destruct 1. Qed.

Section CreatedWith.
Context (env : Env) (c : UserChoices) (f : FS) (b : bool) (T : path).
Hypothesis Hb : Fs.existsSync f (join (currentDirectory env) ["templates"]) = b.
Hypothesis HT : templatesDirectoryIn env f = T.

Let P := projectPathOf env (projectName c).
Let start : list Event :=
  [EvExists (join (currentDirectory env) ["templates"]) b].

Lemma Created_exists_with :
  Fs.existsSync f P = true ->
  Created env c f (Exit 1)
    (start ++ [EvExists P true; existsMessage (projectName c)]).
Proof using Hb. subst b. apply Created_exists. Qed.

Lemma Created_not_materialized_with e mevs :
  Fs.existsSync f P = false ->
  Materialized T P (projectName c) (tsStrictness c) (Throw e) mevs ->
  Created env c f (Throw e)
    (start ++ EvExists P false ::
     EvUi (SpinnerStart "Creating project structure...") ::
     mevs ++ [EvUi (SpinnerStop "Error creating structure")]).
Proof using Hb HT. subst b T. apply Created_not_materialized. Qed.

Lemma Created_not_installed_with e mevs ievs :
  Fs.existsSync f P = false ->
  Materialized T P (projectName c) (tsStrictness c) (Ok tt) mevs ->
  Installed P (Throw e) ievs ->
  Created env c f (Throw e)
    (start ++ EvExists P false ::
     EvUi (SpinnerStart "Creating project structure...") ::
     mevs ++
     EvUi (SpinnerStop "Project structure created ✓") ::
     EvUi (SpinnerStart "Installing dependencies...") ::
     ievs ++ [EvUi (SpinnerStop "Error installing dependencies")]).
Proof using Hb HT. subst b T. apply Created_not_installed. Qed.

Lemma Created_without_git_with mevs ievs :
  Fs.existsSync f P = false ->
  Materialized T P (projectName c) (tsStrictness c) (Ok tt) mevs ->
  Installed P (Ok tt) ievs ->
  initGit c = false ->
  Created env c f (Ok tt)
    (start ++ EvExists P false ::
     EvUi (SpinnerStart "Creating project structure...") ::
     mevs ++
     EvUi (SpinnerStop "Project structure created ✓") ::
     EvUi (SpinnerStart "Installing dependencies...") ::
     ievs ++ [EvUi (SpinnerStop "Dependencies installed ✓")]).
Proof using Hb HT. subst b T. apply Created_without_git. Qed.

Lemma Created_with_git_with mevs ievs o gevs :
  Fs.existsSync f P = false ->
  Materialized T P (projectName c) (tsStrictness c) (Ok tt) mevs ->
  Installed P (Ok tt) ievs ->
  initGit c = true ->
  GitInitialized P o gevs ->
  Created env c f (Ok tt)
    (start ++ EvExists P false ::
     EvUi (SpinnerStart "Creating project structure...") ::
     mevs ++
     EvUi (SpinnerStop "Project structure created ✓") ::
     EvUi (SpinnerStart "Installing dependencies...") ::
     ievs ++
     EvUi (SpinnerStop "Dependencies installed ✓") ::
     EvUi (SpinnerStart "Initializing Git...") ::
     gevs ++ [gitStop o]).
Proof using Hb HT. subst b T. apply Created_with_git. Qed.
End CreatedWith.

Lemma createProject_run env c w :
  exists o f' evs,
    createProject env c w = (o, {| fs := f'; log := log w ++ evs |}) /\
    Created env c (fs w) o evs.
Proof.
  unfold createProject, getTemplatesDirectory.
  unfold existsSync, ui, emit, bind, try_catch, ret, throw, process_exit.
  cbn beta iota zeta delta [fs log fst snd negb].
  set (P := projectPathOf env (projectName c)).
  destruct (Fs.existsSync (fs w) (join (currentDirectory env) ["templates"])) eqn:Hb;
    cbn beta iota zeta delta [fs log fst snd negb].
  all: match type of Hb with _ = ?b =>
         assert (templatesDirectoryIn env (fs w) =
                 if b then join (currentDirectory env) ["templates"]
                 else join (currentDirectory env) [".."; "src"; "templates"]) as HT
           by (unfold templatesDirectoryIn; by rewrite Hb)
       end; cbn beta iota in HT.
  all: destruct (Fs.existsSync (fs w) P) eqn:HP;
    cbn beta iota zeta delta [fs log fst snd negb].
  all: try (give_run; by apply (Created_exists_with env c (fs w) _ Hb)).
  all: match goal with |- context [copyProjectFiles ?e' ?T ?P' ?n ?t ?w1] =>
         destruct (copyProjectFiles_run e' T P' n t w1) as (o1 & f1 & mevs & -> & Hm)
       end; cbn [fs log] in Hm |- *.
  all: destruct o1 as [[]|e|k]; [| | by destruct (Materialized_outcome _ _ _ _ _ _ Hm k)];
       cbn beta iota zeta delta [fs log fst snd negb].
  all: try (give_run; by apply (Created_not_materialized_with env c (fs w) _ _ Hb HT)).
  all: match goal with |- context [installDependencies ?e' ?P' ?w1] =>
         destruct (installDependencies_run e' P' w1) as (o2 & f2 & ievs & -> & Hi)
       end; cbn [fs log] in Hi |- *.
  all: destruct o2 as [[]|e|k]; [| | by destruct (Installed_outcome _ _ _ Hi k)];
       cbn beta iota zeta delta [fs log fst snd negb].
  all: try (give_run; by apply (Created_not_installed_with env c (fs w) _ _ Hb HT)).
  all: destruct (initGit c) eqn:Hg; cbn beta iota zeta delta [fs log fst snd negb].
  all: try (give_run; by apply (Created_without_git_with env c (fs w) _ _ Hb HT)).
  all: match goal with |- context [initializeGitRepository ?e' ?P' ?w1] =>
         destruct (initializeGitRepository_run e' P' w1) as (o3 & f3 & gevs & -> & Hgit)
       end; cbn [fs log] in Hgit |- *.
  all: destruct o3 as [[]|e|k]; [| | by destruct (GitInitialized_outcome _ _ _ Hgit k)];
       cbn beta iota zeta delta [fs log fst snd negb].
  all: give_run.
  all: by apply (Created_with_git_with env c (fs w) _ _ Hb HT _ _ _ _ HP Hm Hi Hg Hgit).
Qed.

Lemma run_observed {A} (m : M A) w o f' evs :
  m w = (o, {| fs := f'; log := log w ++ evs |}) ->
  outcome_of m w = o /\ fs_after m w = f' /\ events_of m w = evs.
Proof.
  intros H. unfold outcome_of, fs_after, events_of. rewrite H. cbn.
  by rewrite drop_app_length.
Qed.

(** Every run of [createProject] has one of the shapes of [Created]. *)
Lemma createProject_shape env c w :
  Created env c (fs w) (outcome_of (createProject env c) w)
    (events_of (createProject env c) w).
Proof.
  destruct (createProject_run env c w) as (o & f' & evs & Hrun & Hc).
  apply run_observed in Hrun as (-> & _ & ->). exact Hc.
Qed.

Lemma cons_eq_inv {A} (x y : A) l k : x :: l = y :: k -> x = y /\ l = k.
Proof. intros H; injection H; auto. Qed.

Lemma app_cons_inv {A} (x : A) l pre e post :
  x :: l = pre ++ e :: post ->
  (pre = [] /\ x = e /\ l = post) \/
  (exists pre', pre = x :: pre' /\ l = pre' ++ e :: post).
Proof. destruct pre as [|y pre]; cbn; intros H; injection H as -> ->; eauto. Qed.

(** Membership in an explicit list. *)
Ltac elem_inv H :=
  repeat (apply elem_of_cons in H as [H|H]; [try discriminate H|]);
  try (apply elem_of_nil in H; contradiction).

(** A sublist of an explicit list. *)
Ltac sub_inv H :=
  lazymatch type of H with
  | [] `sublist_of` _ => clear H
  | (_ :: _) `sublist_of` [] => apply sublist_nil_r in H; discriminate H
  | (_ :: _) `sublist_of` (_ :: _) =>
      let l' := fresh "l" in
      let Heq := fresh "Heq" in
      let Hx := fresh "Hx" in
      let Hl := fresh "Hl" in
      apply sublist_cons_r in H as [H | (l' & Heq & H)];
      [ sub_inv H
      | apply cons_eq_inv in Heq as [Hx Hl]; subst l';
        first [ discriminate Hx | sub_inv H ] ]
  end.

(** The places of an explicit list. *)
Ltac split_inv H :=
  lazymatch type of H with
  | [] = _ ++ _ :: _ => destruct (app_cons_not_nil _ _ _ H)
  | _ :: _ = _ ++ _ :: _ =>
      let pre' := fresh "pre" in
      apply app_cons_inv in H as [(-> & <- & <-) | (pre' & -> & H)];
      [ | split_inv H ]
  end.

Ltac solve_elem :=
  apply list_elem_of_In; cbn [In];
  repeat first [ left; reflexivity | right ].

Ltac solve_sublist :=
  repeat first [ apply sublist_nil | apply sublist_skip | apply sublist_cons ].

Ltac mat_cases H :=
  let tpl := fresh "tpl" in
  let k := fresh "k" in
  let op := fresh "op" in
  let Hk := fresh "Hk" in
  inversion H as [tpl | tpl k op Hk]; subst; clear H;
  try (do 6 (try (destruct k as [|k]; [injection Hk as <-|]));
       try discriminate Hk);
  cbn [okCalls materializeCalls map take app] in *.

(** The shapes of a run, each with its calls spelled out. *)
Ltac created_cases H :=
  let HP := fresh "HP" in
  let Hm := fresh "Hm" in
  let Hi := fresh "Hi" in
  let Hg := fresh "Hg" in
  let Hgit := fresh "Hgit" in
  let P := fresh "P" in
  destruct H as [P HP | ? ? P HP Hm | ? ? ? P HP Hm Hi | ? ? P HP Hm Hi Hg
                | ? ? ? ? P HP Hm Hi Hg Hgit];
  subst P;
  try (mat_cases Hm);
  try (inversion Hi; subst; clear Hi);
  try (inversion Hgit; subst; clear Hgit);
  cbn [app gitStop] in *.

(** ** The prompts and [main] *)

Lemma text_run env tries w :
  exists uis,
    Forall (fun e => is_ui e = true) uis /\
    text env validate tries w =
      (Ok (match head (filter (fun s => validate s = None)
                         (map (fun typed =>
                                 if defaultBeforeValidate env && negb (Js.truthy typed)
                                 then defaultValue else typed) tries)) with
           | Some n => Value n
           | None => Cancelled
           end),
       {| fs := fs w; log := log w ++ uis |}).
Proof.
  revert w. induction tries as [|typed rest IH]; intros w.
  - exists []. split; [constructor|]. cbn. rewrite app_nil_r. by destruct w.
  - cbn [text map]. rewrite filter_cons.
    destruct (validate _) as [problem|] eqn:Hv.
    + destruct (decide (Some problem = None)) as [?|_]; [done|].
      unfold bind, ui, emit. cbn.
      destruct (IH {| fs := fs w; log := log w ++ [EvUi (PValidation problem)] |})
        as (uis & Huis & ->).
      exists (EvUi (PValidation problem) :: uis). split; [by constructor|].
      cbn. by rewrite <- app_assoc.
    + destruct (decide (None = None)) as [_|?]; [|done].
      exists []. split; [constructor|]. cbn. rewrite app_nil_r. by destruct w.
Qed.

Lemma runPrompts_run env w :
  exists uis,
    Forall (fun e => is_ui e = true) uis /\
    runPrompts env w =
      (match choicesOf env with
       | Some c => Ok (Some c)
       | None => Exit 0
       end,
       {| fs := fs w; log := log w ++ uis |}).
Proof.
  unfold runPrompts, asked, onCancel, select, confirm, choicesOf, acceptedName.
  unfold bind at 1. unfold ui, emit. cbn beta iota zeta delta [fs log].
  unfold bind at 1. unfold bind at 1.
  destruct (text_run env (nameTries (script env))
              {| fs := fs w; log := log w ++ [EvUi (PIntro " create-express-ts ")] |})
    as (uis & Huis & ->).
  cbn beta iota zeta delta [fs log].
  destruct (head _) as [n|].
  2: { exists (EvUi (PIntro " create-express-ts ") :: uis ++
               [EvUi (PCancel "Operation cancelled.")]). split.
       - constructor; [done|]. apply Forall_app; split; [done|]. by repeat constructor.
       - cbn. by rewrite <- !app_assoc. }
  destruct (strictnessAnswer (script env)) as [t|]; cbn.
  2: { exists (EvUi (PIntro " create-express-ts ") :: uis ++
               [EvUi (PCancel "Operation cancelled.")]). split.
       - constructor; [done|]. apply Forall_app; split; [done|]. by repeat constructor.
       - cbn. by rewrite <- !app_assoc. }
  destruct (gitAnswer (script env)) as [g|]; cbn.
  2: { exists (EvUi (PIntro " create-express-ts ") :: uis ++
               [EvUi (PCancel "Operation cancelled.")]). split.
       - constructor; [done|]. apply Forall_app; split; [done|]. by repeat constructor.
       - cbn. by rewrite <- !app_assoc. }
  exists (EvUi (PIntro " create-express-ts ") :: uis).
  split; [by constructor|]. cbn. by rewrite <- !app_assoc.
Qed.

Lemma framed_same_fs {A} (m : M A) w w1 :
  framed m -> fs w1 = fs w ->
  outcome_of m w1 = outcome_of m w /\
  fs_after m w1 = fs_after m w /\
  events_of m w1 = events_of m w.
Proof.
  intros Hm Hfs.
  destruct (framed_run m w Hm) as (-> & -> & ->).
  destruct (framed_run m w1 Hm) as (-> & -> & ->).
  by rewrite Hfs.
Qed.

Lemma main_run env w :
  exists uis,
    Forall (fun e => is_ui e = true) uis /\
    main env w =
      match choicesOf env with
      | None => (Exit 0, {| fs := fs w; log := log w ++ uis |})
      | Some c =>
          (mainOutcome (outcome_of (createProject env c) w),
           {| fs := fs_after (createProject env c) w;
              log := log w ++ uis ++ events_of (createProject env c) w ++
                     mainTail c (outcome_of (createProject env c) w) |})
      end.
Proof.
  unfold main. unfold bind at 1. unfold ui, emit. cbn beta iota zeta delta [fs log].
  unfold bind at 1.
  destruct (runPrompts_run env {| fs := fs w; log := log w ++ [EvUi ConsoleClear] |})
    as (uis & Huis & ->).
  cbn beta iota zeta delta [fs log].
  destruct (choicesOf env) as [c|].
  2: { exists (EvUi ConsoleClear :: uis). split; [by constructor|].
       cbn. by rewrite <- app_assoc. }
  exists (EvUi ConsoleClear :: uis ++ [EvUi (ConsoleLog "")]). split.
  { constructor; [done|]. apply Forall_app; split; [done|]. by repeat constructor. }
  unfold bind at 1. cbn beta iota zeta delta [fs log].
  unfold try_catch. unfold bind at 1.
  match goal with |- context [createProject env c ?w1] =>
    destruct (framed_same_fs (createProject env c) w w1 (framed_createProject env c) eq_refl)
      as (<- & <- & <-);
    destruct (createProject_run env c w1) as (o & f' & evs & Hrun & _);
    destruct (run_observed _ _ _ _ _ Hrun) as (-> & -> & ->); rewrite Hrun
  end.
  destruct o as [[]|e|k]; cbn.
  - unfold displaySuccessMessage, bind, ui, emit, events_of. cbn.
    by rewrite <- !app_assoc.
  - unfold bind, ui, emit, process_exit. cbn. by rewrite <- !app_assoc.
  - by rewrite app_nil_r, <- !app_assoc.
Qed.

(** ** Strings *)

Lemma classMatch_name_char c :
  Regex.classMatch_i Regex.nameClass c = true <-> name_char c.
Proof.
  destruct c as [[] [] [] [] [] [] [] []];
    vm_compute; split; intros H; try reflexivity; try discriminate;
    try (exfalso; destruct H as [[H1 H2]|[[H1 H2]|[[H1 H2]|[H|H]]]];
         first [discriminate | lia]);
    try (left; lia); try (right; left; lia); try (right; right; left; lia);
    try (right; right; right; left; reflexivity);
    try (right; right; right; right; reflexivity).
Qed.

Lemma forallb_Forall {A} (f : A -> bool) l :
  forallb f l = true <-> Forall (fun x => f x = true) l.
Proof.
  induction l as [|x l IH]; cbn.
  - split; [constructor|done].
  - rewrite andb_true_iff, IH. split.
    + intros [??]. by constructor.
    + intros H. apply Forall_cons in H. done.
Qed.

Lemma validate_accepts value :
  validate value = None <-> matches_name_pattern value.
Proof.
  unfold validate, matches_name_pattern, Regex.test_plus_i.
  destruct value as [|a s]; cbn [Js.truthy negb Js.chars list_ascii_of_string].
  - split; [done|]. by intros [? _].
  - destruct (forallb _ _) eqn:Hf; cbn [negb].
    + split; [intros _|done]. split; [done|].
      apply forallb_Forall in Hf. eapply Forall_impl; [exact Hf|].
      intros c. apply classMatch_name_char.
    + split; [done|]. intros [_ Hall]. exfalso.
      assert (forallb (Regex.classMatch_i Regex.nameClass)
                (a :: list_ascii_of_string s) = true) as Ht; [|congruence].
      apply forallb_Forall. eapply Forall_impl; [exact Hall|].
      intros c. apply classMatch_name_char.
Qed.

Lemma startsWith_cons_head c p s :
  Js.startsWith (String c p) s = true -> exists s', s = String c s'.
Proof.
  destruct s as [|b s]; cbn; [done|]. destruct (decide (c = b)) as [->|]; [eauto|done].
Qed.

(** A pattern that occurs in a string starts with one of its characters. *)
Lemma includes_head c p s :
  Js.includes (String c p) s = true -> In c (Js.chars s).
Proof.
  induction s as [|b s IH]; cbn [Js.includes].
  - cbn. done.
  - intros H. apply orb_true_iff in H as [H|H].
    + apply startsWith_cons_head in H as [s' Hs]. injection Hs as Hb _. left. done.
    + right. by apply IH.
Qed.

Lemma name_chars_lack c s :
  matches_name_pattern s -> ~ name_char c -> forall p, Js.includes (String c p) s = false.
Proof.
  intros [_ Hall] Hc p. apply not_true_is_false. intros H%includes_head.
  apply Hc. rewrite Forall_forall in Hall. by apply Hall, list_elem_of_In.
Qed.

Ltac not_name_char :=
  let H := fresh in
  intros H; vm_compute in H;
  destruct H as [[? ?]|[[? ?]|[[? ?]|[H|H]]]]; first [discriminate | lia].

Lemma slash_not_name_char : ~ name_char "/".
Proof. not_name_char. Qed.
Lemma backslash_not_name_char : ~ name_char "\".
Proof. not_name_char. Qed.
Lemma dot_not_name_char : ~ name_char ".".
Proof. not_name_char. Qed.
Lemma dollar_not_name_char : ~ name_char "$".
Proof. not_name_char. Qed.
Lemma brace_not_name_char : ~ name_char "{".
Proof. not_name_char. Qed.

(** ** Paths *)

Lemma split_nonempty s : split s <> [].
Proof.
  induction s as [|c s IH]; cbn; [done|].
  destruct (decide (c = "/"%char)); [done|]. by destruct (split s).
Qed.

Lemma split_plain s : Js.includes "/" s = false -> split s = [s].
Proof.
  induction s as [|c s IH]; [done|].
  cbn [Js.includes Js.startsWith split]. intros H.
  apply orb_false_iff in H as [H1 H2].
  destruct (decide ("/"%char = c)) as [<-|Hne]; [done|].
  destruct (decide (c = "/"%char)) as [->|_]; [done|].
  by rewrite (IH H2).
Qed.

Lemma append_cons c a x : String c a +:+ x = String c (a +:+ x).
Proof. reflexivity. Qed.

Lemma append_nil x : "" +:+ x = x.
Proof. reflexivity. Qed.

Lemma split_app_sep a b : split (a +:+ "/" +:+ b) = split a ++ split b.
Proof.
  induction a as [|c a IH]; [done|].
  rewrite append_cons. cbn [split].
  destruct (decide (c = "/"%char)); [by rewrite IH|].
  rewrite IH. pose proof (split_nonempty a). by destruct (split a).
Qed.

Lemma normalize_snoc l seg :
  seg <> "" -> seg <> "." -> seg <> ".." ->
  normalize (l ++ [seg]) = normalize l ++ [seg].
Proof.
  intros H1 H2 H3. unfold normalize. rewrite fold_left_app. cbn. unfold step at 1.
  by repeat (destruct (decide _); [done|]).
Qed.

Lemma normalize_snoc_empty l : normalize (l ++ [""]) = normalize l.
Proof. unfold normalize. by rewrite fold_left_app. Qed.

Lemma plain_spec seg :
  plain seg = true ->
  Js.includes "/" seg = false /\ seg <> "" /\ seg <> "." /\ seg <> "..".
Proof.
  unfold plain. rewrite !andb_true_iff, !negb_true_iff, !bool_decide_eq_false. tauto.
Qed.

Lemma flat_map_split_plain parts :
  Forall (fun s => plain s = true) parts -> flat_map split parts = parts.
Proof.
  induction 1 as [|s parts Hs _ IH]; [done|].
  cbn. apply plain_spec in Hs as (Hs & _). by rewrite (split_plain _ Hs), IH.
Qed.

Lemma join_plain base parts :
  Forall (fun s => plain s = true) parts ->
  join base parts = normalize base ++ parts.
Proof.
  intros Hp. unfold join. rewrite (flat_map_split_plain _ Hp).
  induction parts as [|s parts IH] using rev_ind.
  - by rewrite !app_nil_r.
  - apply Forall_app in Hp as [Hp Hs]. apply Forall_cons in Hs as [Hs _].
    apply plain_spec in Hs as (_ & ? & ? & ?).
    rewrite !app_assoc, normalize_snoc by done. by rewrite IH.
Qed.

(** What normalization returns is left as it is by normalization. *)
Lemma fold_step_kept l acc :
  Forall (fun s => s <> "" /\ s <> "." /\ s <> "..") acc ->
  Forall (fun s => s <> "" /\ s <> "." /\ s <> "..") (fold_left step l acc).
Proof.
  revert acc. induction l as [|s l IH]; intros acc Hacc; [done|].
  cbn. apply IH. unfold step. repeat (destruct (decide _); [try done|]).
  - destruct acc; [done|]. by apply Forall_cons in Hacc as [_ ?].
  - by constructor.
Qed.

Lemma normalize_kept l :
  Forall (fun s => s <> "" /\ s <> "." /\ s <> "..") l -> normalize l = l.
Proof.
  induction l as [|s l IH] using rev_ind; intros Hl; [done|].
  apply Forall_app in Hl as [Hl Hs]. apply Forall_cons in Hs as [(? & ? & ?) _].
  by rewrite normalize_snoc, IH.
Qed.

Lemma normalize_idem l : normalize (normalize l) = normalize l.
Proof.
  apply normalize_kept. unfold normalize. apply Forall_rev.
  by apply fold_step_kept.
Qed.

Lemma join_join_plain base parts :
  Forall (fun s => plain s = true) parts ->
  normalize (join base parts) = join base parts.
Proof. intros _. apply normalize_idem. Qed.

Lemma resolve_go_split rargs :
  exists segs, forall acc, split (resolve_go rargs acc) = segs ++ split acc.
Proof.
  induction rargs as [|p rest [segs IH]].
  - by exists [].
  - cbn [resolve_go]. destruct (Js.truthy p); cbn [negb]; [|by exists segs].
    destruct (isAbsolute p).
    + exists (split p). intros acc. apply split_app_sep.
    + exists (segs ++ split p). intros acc.
      by rewrite IH, split_app_sep, app_assoc.
Qed.

Lemma projectPathOf_normal env name : normalize (projectPathOf env name) = projectPathOf env name.
Proof. apply normalize_idem. Qed.

Lemma resolve_go_relative p rest acc :
  Js.truthy p = true -> isAbsolute p = false ->
  resolve_go (p :: rest) acc = resolve_go rest (p +:+ "/" +:+ acc).
Proof. intros Ht Ha. cbn [resolve_go]. by rewrite Ht, Ha. Qed.

(** The target of an accepted name is the working directory, resolved, with
    the name as one more segment. *)
Lemma projectPathOf_child env name :
  matches_name_pattern name ->
  projectPathOf env name = resolve (process_cwd env) [process_cwd env] ++ [name].
Proof.
  intros Hn. pose proof Hn as [Hne _].
  pose proof (name_chars_lack "/" name Hn slash_not_name_char "") as Hs.
  pose proof (name_chars_lack "." name Hn dot_not_name_char) as Hd.
  unfold projectPathOf, resolve.
  change (rev [process_cwd env; name] ++ [process_cwd env])
    with (name :: rev [process_cwd env] ++ [process_cwd env]).
  rewrite resolve_go_relative.
  - destruct (resolve_go_split (rev [process_cwd env] ++ [process_cwd env]))
      as [segs Hsegs].
    rewrite !Hsegs. rewrite split_app_sep, (split_plain _ Hs). cbn [split].
    rewrite !app_assoc, !normalize_snoc_empty.
    apply normalize_snoc; try done.
    + intros ->. by specialize (Hd "").
    + intros ->. by specialize (Hd "").
  - by destruct name.
  - destruct name as [|a name]; [done|]. unfold isAbsolute. cbn.
    destruct (decide ("/"%char = a)) as [<-|]; [|done].
    cbn in Hs. by destruct (decide _).
Qed.

(** ** Replacement *)

Lemma not_includes_cons p c s :
  Js.includes p (String c s) = false ->
  Js.startsWith p (String c s) = false /\ Js.includes p s = false.
Proof. cbn [Js.includes]. by intros ?%orb_false_iff. Qed.

(** A replacement text without a dollar sign stands for itself. *)
Lemma getSubstitution_verbatim matched before after repl :
  Js.includes "$" repl = false ->
  Replace.getSubstitution matched before after repl = repl.
Proof.
  induction repl as [|c r IH]; [done|].
  intros [Hs Hr]%not_includes_cons. cbn [Replace.getSubstitution].
  destruct (decide (c = "$"%char)) as [->|_].
  - cbn in Hs. by destruct (decide _).
  - by rewrite IH.
Qed.

Lemma pieces_go_nonempty pat skip s : Replace.pieces_go pat skip s <> [].
Proof.
  revert skip. induction s as [|c s IH]; intros skip; cbn; [done|].
  destruct skip; [|apply IH].
  destruct (Js.startsWith pat (String c s)); [done|].
  by destruct (Replace.pieces_go pat 0 s).
Qed.

Lemma join_cons sep s l :
  l <> [] -> Js.join sep (s :: l) = s +:+ sep +:+ Js.join sep l.
Proof. by destruct l. Qed.

Lemma join_cons_head sep c s l :
  Js.join sep (String c s :: l) = String c (Js.join sep (s :: l)).
Proof. by destruct l. Qed.

(** With such a replacement text, the result is the pieces between the
    matches joined by the text. *)
Lemma replace_go_pieces pat repl str pos skip s :
  Js.includes "$" repl = false ->
  Replace.replace_go pat repl str pos skip s =
  Js.join repl (Replace.pieces_go pat skip s).
Proof.
  intros Hr. revert pos skip. induction s as [|c s IH]; intros pos skip; [done|].
  cbn [Replace.replace_go Replace.pieces_go]. destruct skip; [|apply IH].
  destruct (Js.startsWith pat (String c s)).
  - rewrite getSubstitution_verbatim by done.
    rewrite join_cons by apply pieces_go_nonempty. by rewrite IH.
  - rewrite IH. pose proof (pieces_go_nonempty pat 0 s).
    destruct (Replace.pieces_go pat 0 s) as [|seg rest]; [done|].
    by rewrite join_cons_head.
Qed.

Lemma replace_global_pieces pat repl str :
  Js.includes "$" repl = false ->
  Replace.replace_global pat repl str = Js.join repl (Replace.pieces pat str).
Proof. apply replace_go_pieces. Qed.

Lemma startsWith_drop pat s :
  Js.startsWith pat s = true -> s = pat +:+ Js.drop (String.length pat) s.
Proof.
  revert s. induction pat as [|a pat IH]; intros s; [done|].
  destruct s as [|b s]; cbn [Js.startsWith]; [done|].
  destruct (decide (a = b)) as [->|]; [|done].
  intros H. cbn [String.length Js.drop]. rewrite append_cons. f_equal. by apply IH.
Qed.

Lemma drop_nil n : Js.drop n "" = "".
Proof. by destruct n. Qed.

(** The pieces joined by the pattern give the text back. *)
Lemma join_pieces_go pat skip s :
  pat <> "" -> Js.join pat (Replace.pieces_go pat skip s) = Js.drop skip s.
Proof.
  intros Hpat. revert skip. induction s as [|c s IH]; intros skip.
  - by rewrite drop_nil.
  - cbn [Replace.pieces_go]. destruct skip as [|k]; [|apply IH].
    destruct (Js.startsWith pat (String c s)) eqn:Hsw.
    + rewrite join_cons by apply pieces_go_nonempty. rewrite IH, append_nil.
      apply startsWith_drop in Hsw.
      destruct pat as [|a pat]; [done|]. cbn [String.length Js.drop] in *.
      replace (S (String.length pat) - 1)%nat with (String.length pat) by lia.
      done.
    + specialize (IH 0%nat). pose proof (pieces_go_nonempty pat 0 s).
      destruct (Replace.pieces_go pat 0 s) as [|seg rest]; [done|].
      rewrite join_cons_head, IH. done.
Qed.

Lemma join_pieces pat s : pat <> "" -> Js.join pat (Replace.pieces pat s) = s.
Proof. intros H. apply (join_pieces_go pat 0 s H). Qed.

(** Prefixes. *)
Lemma startsWith_trans p q s :
  Js.startsWith p q = true -> Js.startsWith q s = true -> Js.startsWith p s = true.
Proof.
  revert q s. induction p as [|a p IH]; intros q s; [done|].
  destruct q as [|b q]; [done|]. destruct s as [|c s]; [done|].
  cbn [Js.startsWith]. destruct (decide (a = b)) as [->|]; [|done].
  destruct (decide (b = c)) as [->|]; [|done]. apply IH.
Qed.

Lemma startsWith_app p s : Js.startsWith p (p +:+ s) = true.
Proof.
  induction p as [|a p IH]; [done|]. rewrite append_cons. cbn.
  by destruct (decide (a = a)).
Qed.

Lemma includes_app_r p a s : Js.includes p s = true -> Js.includes p (a +:+ s) = true.
Proof.
  intros H. induction a as [|c a IH]; [done|].
  rewrite append_cons. cbn [Js.includes]. rewrite IH. apply orb_true_r.
Qed.

Lemma includes_mid p a b : Js.includes p (a +:+ p +:+ b) = true.
Proof.
  apply includes_app_r. destruct p as [|c p]; [by destruct b|].
  rewrite append_cons. cbn [Js.includes].
  rewrite <- append_cons, startsWith_app. done.
Qed.

(** The first piece is a prefix of the text. *)
Lemma first_piece_prefix pat s seg rest :
  Replace.pieces_go pat 0 s = seg :: rest -> Js.startsWith seg s = true.
Proof.
  revert seg rest. induction s as [|c s IH]; intros seg rest.
  - cbn. by intros [= <- _].
  - cbn [Replace.pieces_go]. destruct (Js.startsWith pat (String c s)).
    + by intros [= <- _].
    + pose proof (pieces_go_nonempty pat 0 s).
      destruct (Replace.pieces_go pat 0 s) as [|seg' rest']; [done|].
      intros [= <- _]. cbn. destruct (decide (c = c)); [|done]. by eapply IH.
Qed.

(** No piece holds an occurrence of the pattern. *)
Lemma pieces_go_free pat skip s :
  pat <> "" ->
  Forall (fun seg => Js.includes pat seg = false) (Replace.pieces_go pat skip s).
Proof.
  intros Hpat. revert skip. induction s as [|c s IH]; intros skip.
  - cbn. constructor; [by destruct pat|constructor].
  - cbn [Replace.pieces_go]. destruct skip as [|k]; [|apply IH].
    destruct (Js.startsWith pat (String c s)) eqn:Hsw.
    + constructor; [by destruct pat|apply IH].
    + specialize (IH 0%nat). pose proof (first_piece_prefix pat s) as Hpre.
      pose proof (pieces_go_nonempty pat 0 s).
      destruct (Replace.pieces_go pat 0 s) as [|seg rest]; [done|].
      apply Forall_cons in IH as [Hseg Hrest]. constructor; [|done].
      cbn [Js.includes]. rewrite Hseg, orb_false_r.
      apply not_true_is_false. intros Hp.
      assert (Js.startsWith pat (String c s) = true); [|congruence].
      eapply startsWith_trans; [exact Hp|]. cbn.
      destruct (decide (c = c)); [|done]. by eapply Hpre.
Qed.

Lemma pieces_free pat s :
  pat <> "" -> Forall (fun seg => Js.includes pat seg = false) (Replace.pieces pat s).
Proof. apply pieces_go_free. Qed.

(** A text that holds the pattern has more than one piece. *)
Lemma pieces_go_occurrence pat s :
  pat <> "" ->
  Js.includes pat s = true -> (2 <= length (Replace.pieces_go pat 0 s))%nat.
Proof.
  intros Hpat. induction s as [|c s IH].
  - cbn. rewrite orb_false_r. by destruct pat.
  - cbn [Js.includes Replace.pieces_go].
    destruct (Js.startsWith pat (String c s)) eqn:Hsw.
    + intros _. pose proof (pieces_go_nonempty pat (String.length pat - 1) s) as Hne.
      destruct (Replace.pieces_go pat (String.length pat - 1) s); [done|].
      cbn [length]. lia.
    + cbn [orb]. intros H%IH. destruct (Replace.pieces_go pat 0 s); cbn in *; lia.
Qed.

Lemma join_includes_sep sep l :
  (2 <= length l)%nat -> Js.includes sep (Js.join sep l) = true.
Proof.
  destruct l as [|a [|b rest]]; cbn [length]; try lia. intros _.
  rewrite join_cons by done. apply includes_mid.
Qed.

(** A pattern occurs where a longer one that starts with it occurs. *)
Lemma includes_shorter q p s :
  Js.startsWith q p = true -> Js.includes p s = true -> Js.includes q s = true.
Proof.
  intros Hq. induction s as [|c s IH]; cbn [Js.includes].
  - rewrite !orb_false_r. intros H. by eapply startsWith_trans.
  - intros [H|H]%orb_true_iff.
    + by rewrite (startsWith_trans _ _ _ Hq H).
    + rewrite (IH H). apply orb_true_r.
Qed.

(** Two opening braces in a row. *)
Lemma no_braces_app_l name y :
  Js.includes "{" name = false -> Js.includes "{{" y = false ->
  Js.includes "{{" (name +:+ y) = false.
Proof.
  intros Hn Hy. induction name as [|c name IH]; [done|].
  apply not_includes_cons in Hn as [Hc Hn].
  rewrite append_cons. cbn [Js.includes]. rewrite (IH Hn), orb_false_r.
  cbn in Hc |- *. by destruct (decide ("{"%char = c)).
Qed.

Lemma no_braces_app_r seg x :
  Js.includes "{{" seg = false -> Js.startsWith "{" x = false ->
  Js.includes "{{" x = false ->
  Js.includes "{{" (seg +:+ x) = false.
Proof.
  intros Hseg Hx Hix. induction seg as [|c seg IH]; [done|].
  apply not_includes_cons in Hseg as [Hc Hseg].
  rewrite append_cons. cbn [Js.includes]. rewrite (IH Hseg), orb_false_r.
  cbn [Js.startsWith] in Hc |- *.
  destruct (decide ("{"%char = c)) as [<-|]; [|done].
  destruct seg as [|d seg]; [by rewrite append_nil|].
  rewrite append_cons. done.
Qed.

Lemma join_no_braces name segs :
  name <> "" -> Js.includes "{" name = false ->
  Forall (fun seg => Js.includes "{{" seg = false) segs ->
  Js.includes "{{" (Js.join name segs) = false.
Proof.
  intros Hne Hn. induction 1 as [|seg rest Hseg Hrest IH]; [done|].
  destruct rest as [|seg2 rest]; [done|].
  rewrite join_cons by done.
  apply no_braces_app_r; [done| |by apply no_braces_app_l].
  destruct name as [|c name]; [done|]. rewrite append_cons.
  apply not_includes_cons in Hn as [Hc _]. cbn in Hc |- *.
  by destruct (decide ("{"%char = c)).
Qed.

(** The manifest written for an accepted name. *)
Lemma manifest_of_accepted_name name tpl :
  matches_name_pattern name ->
  let out := Replace.replace_global PLACEHOLDER name tpl in
  out = Js.join name (Replace.pieces PLACEHOLDER tpl) /\
  tpl = Js.join PLACEHOLDER (Replace.pieces PLACEHOLDER tpl) /\
  Forall (fun seg => Js.includes PLACEHOLDER seg = false)
         (Replace.pieces PLACEHOLDER tpl) /\
  (braces_open_placeholders_only tpl -> Js.includes PLACEHOLDER out = false) /\
  (Js.includes PLACEHOLDER tpl = true -> Js.includes name out = true).
Proof.
  intros Hn out.
  assert (out = Js.join name (Replace.pieces PLACEHOLDER tpl)) as Hout.
  { apply replace_global_pieces.
    apply (name_chars_lack "$" name Hn dollar_not_name_char ""). }
  split; [done|]. split; [by rewrite join_pieces|].
  split; [by apply pieces_free|]. split.
  - intros Hb. rewrite Hout. apply not_true_is_false. intros H.
    apply (includes_shorter "{{") in H; [|done].
    rewrite join_no_braces in H; [done|by destruct Hn| |done].
    apply (name_chars_lack "{" name Hn brace_not_name_char "").
  - intros H. rewrite Hout. apply join_includes_sep.
    by apply pieces_go_occurrence.
Qed.

(** ** The file system *)

Lemma elem_of_prefixes (q p : path) : q ∈ Fs.prefixes p <-> q `prefix_of` p.
Proof.
  unfold Fs.prefixes. rewrite list_elem_of_In, in_map_iff. split.
  - intros (n & <- & _). apply prefix_take.
  - intros [k ->]. exists (length q). split.
    + by rewrite take_app_length.
    + apply in_seq. rewrite length_app. lia.
Qed.

Lemma prefix_snoc (q l : path) x :
  q `prefix_of` l ++ [x] <-> q = l ++ [x] \/ q `prefix_of` l.
Proof.
  split.
  - intros [k Hk]. destruct k as [|y k _] using rev_ind.
    + left. by rewrite app_nil_r in Hk.
    + right. rewrite app_assoc in Hk. apply app_inj_tail in Hk as [-> _].
      by exists k.
  - intros [->|[k ->]]; [done|]. exists (k ++ [x]). by rewrite app_assoc.
Qed.

Lemma foldr_insert_dir_lookup (l : list path) (f : FS) (q : path) :
  foldr (fun x acc => <[x := Dir]> acc) f l !! q =
  if decide (q ∈ l) then Some Dir else f !! q.
Proof.
  induction l as [|x l IH]; cbn [foldr].
  - by rewrite decide_False by apply not_elem_of_nil.
  - destruct (decide (x = q)) as [->|Hne].
    + rewrite lookup_insert_eq. rewrite decide_True; [done|apply list_elem_of_here].
    + rewrite lookup_insert_ne by done. rewrite IH.
      destruct (decide (q ∈ l)) as [Hin|Hnin].
      * rewrite decide_True; [done|by apply list_elem_of_further].
      * rewrite decide_False; [done|]. intros [?|?]%elem_of_cons; congruence.
Qed.

(** [mkdirs] succeeds when no file is in the way, and then makes a
    directory of every prefix of the path. *)
Lemma mkdirs_lookup (f f' : FS) (p q : path) :
  Fs.mkdirs f p = Some f' ->
  f' !! q = if decide (q `prefix_of` p) then Some Dir else f !! q.
Proof.
  unfold Fs.mkdirs. destruct (existsb _ _); [done|].
  intros H. apply (inj Some) in H as <-.
  rewrite foldr_insert_dir_lookup.
  destruct (decide (q ∈ Fs.prefixes p)) as [H|H]; rewrite elem_of_prefixes in H.
  - by rewrite decide_True.
  - by rewrite decide_False.
Qed.

Lemma mkdirs_succeeds (f : FS) (p : path) :
  (forall q, q `prefix_of` p -> Fs.isFile f q = false) -> is_Some (Fs.mkdirs f p).
Proof.
  intros H. unfold Fs.mkdirs.
  destruct (existsb _ _) eqn:He; [|eauto].
  apply existsb_exists in He as (q & Hq%list_elem_of_In%elem_of_prefixes & Hf).
  by rewrite H in Hf.
Qed.

Lemma isFile_dir (f : FS) q : f !! q = Some Dir -> Fs.isFile f q = false.
Proof. unfold Fs.isFile. by intros ->. Qed.

Lemma isFile_none (f : FS) q : f !! q = None -> Fs.isFile f q = false.
Proof. unfold Fs.isFile. by intros ->. Qed.

(** Where every prefix is a directory already, [mkdirs] changes nothing. *)
Lemma mkdirs_present (f : FS) (p : path) :
  (forall q, q `prefix_of` p -> f !! q = Some Dir) -> Fs.mkdirs f p = Some f.
Proof.
  intros H. destruct (mkdirs_succeeds f p) as [f' Hf'].
  { intros q Hq. by apply isFile_dir, H. }
  rewrite Hf'. f_equal. apply map_eq. intros q.
  rewrite (mkdirs_lookup _ _ _ _ Hf'). destruct (decide _); [|done]. by rewrite H.
Qed.

(** Two directories made below a directory. *)
Lemma mkdirs_two (f : FS) (base : path) x y :
  (forall q, q `prefix_of` base -> f !! q = Some Dir) ->
  f !! (base ++ [x]) = None -> f !! (base ++ [x; y]) = None ->
  Fs.mkdirs f (base ++ [x; y]) =
  Some (<[base ++ [x; y] := Dir]> (<[base ++ [x] := Dir]> f)).
Proof.
  intros Hbase Hx Hxy.
  assert (base ++ [x; y] = (base ++ [x]) ++ [y]) as Hassoc by by rewrite <- app_assoc.
  destruct (mkdirs_succeeds f (base ++ [x; y])) as [f' Hf'].
  { intros q. rewrite Hassoc, !prefix_snoc. intros [->|[->|Hq]].
    - rewrite <- Hassoc. by apply isFile_none.
    - by apply isFile_none.
    - by apply isFile_dir, Hbase. }
  rewrite Hf'. f_equal. apply map_eq. intros q.
  rewrite (mkdirs_lookup _ _ _ _ Hf'), !lookup_insert.
  destruct (decide (base ++ [x; y] = q)) as [<-|H1].
  { by rewrite decide_True. }
  destruct (decide (base ++ [x] = q)) as [<-|H2].
  { rewrite decide_True; [done|]. rewrite Hassoc. by apply prefix_app_r. }
  destruct (decide (q `prefix_of` base ++ [x; y])) as [Hq|Hq]; [|done].
  rewrite Hassoc, !prefix_snoc in Hq. destruct Hq as [->|[->|Hq]]; try done.
  by rewrite Hbase.
Qed.

(** A file copied to a place that is free, below directories that exist. *)
Lemma copy_file_fresh (f : FS) (src dst : path) c :
  f !! src = Some (File c) -> f !! dst = None ->
  (forall q, q `prefix_of` Fs.parent dst -> f !! q = Some Dir) ->
  Fs.copy f src dst = Some (<[dst := File c]> f).
Proof.
  intros Hsrc Hdst Hpar. unfold Fs.copy. rewrite Hsrc.
  destruct (decide (src = dst)) as [->|_]; [congruence|].
  rewrite Hdst. by rewrite mkdirs_present.
Qed.

Lemma writeFile_fresh (f : FS) (p : path) c :
  f !! Fs.parent p = Some Dir -> f !! p = None ->
  Fs.writeFile f p c = Some (<[p := File c]> f).
Proof. intros Hpar Hp. unfold Fs.writeFile. by rewrite Hpar, Hp. Qed.

(** In a tree, what is above an entry is a directory, and nothing is below
    a free place. *)
Lemma tree_above (f : FS) (p q : path) :
  tree_shaped f -> is_Some (f !! p) -> q `prefix_of` p -> q <> p ->
  f !! q = Some Dir.
Proof.
  intros Ht Hp [k ->]. revert Hp. induction k as [|x k IH] using rev_ind.
  - rewrite app_nil_r. done.
  - intros Hp _. rewrite app_assoc in Hp. apply Ht in Hp.
    destruct k as [|y k]; [by rewrite app_nil_r in Hp|].
    apply IH; [by rewrite Hp|]. intros H. apply (f_equal length) in H.
    rewrite length_app in H. cbn in H. lia.
Qed.

Lemma tree_below (f : FS) (p q : path) :
  tree_shaped f -> f !! p = None -> p `prefix_of` q -> f !! q = None.
Proof.
  intros Ht Hp Hpq. destruct (f !! q) as [n|] eqn:Hq; [|done].
  destruct (decide (p = q)) as [->|Hne]; [congruence|].
  rewrite (tree_above f q p Ht) in Hp; [done|by rewrite Hq|done|done].
Qed.

Lemma tree_dir_prefixes (f : FS) (p q : path) :
  tree_shaped f -> f !! p = Some Dir -> q `prefix_of` p -> f !! q = Some Dir.
Proof.
  intros Ht Hp Hq. destruct (decide (q = p)) as [->|Hne]; [done|].
  eapply tree_above; eauto.
Qed.

Lemma parent_snoc (p : path) x : Fs.parent (p ++ [x]) = p.
Proof. apply removelast_last. Qed.

Lemma parent_snoc2 (p : path) x y : Fs.parent (p ++ [x; y]) = p ++ [x].
Proof.
  replace (p ++ [x; y]) with ((p ++ [x]) ++ [y]) by by rewrite <- app_assoc.
  apply parent_snoc.
Qed.

(** ** Materialization *)


Lemma dirs_insert_other (f : FS) p k v :
  dirs f p -> ~ k `prefix_of` p -> dirs (<[k := v]> f) p.
Proof.
  intros Hd Hk q Hq. rewrite lookup_insert_ne; [by apply Hd|]. by intros ->.
Qed.

Lemma dirs_snoc (f : FS) p x :
  dirs f p -> dirs (<[p ++ [x] := Dir]> f) (p ++ [x]).
Proof.
  intros Hd q [->|Hq]%prefix_snoc; [by rewrite lookup_insert_eq|].
  rewrite lookup_insert_ne; [by apply Hd|]. intros <-.
  apply prefix_length in Hq. rewrite length_app in Hq. cbn in Hq. lia.
Qed.

Lemma not_prefix_longer (p x : path) : x <> [] -> ~ (p ++ x) `prefix_of` p.
Proof.
  intros Hx H%prefix_length. rewrite length_app in H. destruct x; [done|].
  cbn in H. lia.
Qed.

Lemma not_prefix_sibling (p : path) a x b :
  a <> b -> ~ (p ++ a :: x) `prefix_of` (p ++ [b]).
Proof.
  intros Hab [k Hk]. rewrite <- app_assoc in Hk. apply app_inv_head in Hk.
  cbn in Hk. congruence.
Qed.

Ltac path_ne :=
  let H := fresh in
  intros H;
  first [ apply app_inv_head in H; discriminate H
        | apply (f_equal length) in H; rewrite ?length_app in H; cbn in H; lia ].

Lemma last_differs (l k : path) x y : x <> y -> l ++ [x] <> k ++ [y].
Proof. intros Hxy H. by apply app_inj_tail in H as [_ ?]. Qed.

Lemma tsconfigSourcePath_segments D t :
  tsconfigSourcePath D t =
  normalize D ++ ["tsconfig"; strictnessName t +:+ ".json"].
Proof.
  unfold tsconfigSourcePath. apply join_plain. destruct t; by repeat constructor.
Qed.

Lemma TemplatesIn_base T t f idx ign tpl cfg :
  TemplatesIn T t f idx ign tpl cfg -> BaseTemplatesIn T f idx ign tpl.
Proof. by intros [? ? ? ?]. Qed.

Section Materialize.
Context (env : Env) (name : string) (t : TsStrictness) (T : path).
Context (f : FS) (idx ign tpl : string).

Let P := projectPathOf env name.
Let man := Replace.replace_global PLACEHOLDER name tpl.
Let config := OpCopy (tsconfigSourcePath T t) (join P ["tsconfig.json"]).

Hypothesis Hfault : forall op g, io_fault env op g = false.
Hypothesis Hname : matches_name_pattern name.
Hypothesis Htree : tree_shaped f.
Hypothesis Hcwd : f !! resolve (process_cwd env) [process_cwd env] = Some Dir.
Hypothesis Habsent : f !! P = None.
Hypothesis Hbase : BaseTemplatesIn T f idx ign tpl.

Lemma target_join parts :
  Forall (fun s => plain s = true) parts -> join P parts = P ++ parts.
Proof using Type.
  intros Hp. unfold P. rewrite join_plain by done. by rewrite projectPathOf_normal.
Qed.

Lemma below_target_free x : f !! (P ++ x) = None.
Proof using Htree Habsent.
  apply (tree_below f P); [done|done|]. by apply prefix_app_r.
Qed.

Lemma template_outside src n x : f !! src = Some n -> P ++ x <> src.
Proof using Htree Habsent.
  intros Hsrc <-. by rewrite below_target_free in Hsrc.
Qed.

Lemma template_not_target src n : f !! src = Some n -> P <> src.
Proof using Habsent. intros Hsrc <-. by rewrite Habsent in Hsrc. Qed.

Lemma dirs_above_target : dirs f (resolve (process_cwd env) [process_cwd env]).
Proof using Htree Hcwd. intros q Hq. by eapply tree_dir_prefixes. Qed.

Lemma dirs_partialTree : dirs (partialTree P idx ign man f) P.
Proof using Hname Htree Hcwd.
  pose proof (projectPathOf_child env name Hname) as HP. fold P in HP.
  unfold partialTree.
  do 3 (apply dirs_insert_other; [|by apply not_prefix_longer]).
  intros q Hq. apply (dirs_snoc _ P "src"); [|by apply prefix_app_r].
  rewrite HP. apply dirs_snoc, dirs_above_target.
Qed.

(** The first five calls succeed; the run ends with the copy of the
    configuration template. *)
Lemma materialize_steps w :
  fs w = f ->
  copyProjectFiles env T P name t w =
    match Fs.copy (partialTree P idx ign man f) (tsconfigSourcePath T t)
            (P ++ ["tsconfig.json"]) with
    | Some f' =>
        (Ok tt,
         {| fs := f';
            log := log w ++ okCalls (take 5 (materializeCalls T P name t tpl)) ++
                   [EvFs config true] |})
    | None =>
        (Throw (FsError config),
         {| fs := partialTree P idx ign man f;
            log := log w ++ okCalls (take 5 (materializeCalls T P name t tpl)) ++
                   [EvFs config false] |})
    end.
Proof using All.
  intros Hw. destruct Hbase as [Hidx Hign Htpl].
  pose proof (projectPathOf_child env name Hname) as HP. fold P in HP.
  set (C := resolve (process_cwd env) [process_cwd env]) in *.
  pose proof dirs_above_target as HdC. fold C in HdC.
  unfold config, copyProjectFiles, materializeCalls, okCalls, partialTree.
  rewrite !target_join by (repeat constructor).
  unfold ensureDir, copy, writeFile, readFile, fsCall, bind.
  cbn beta iota zeta delta [fs log map take]. rewrite Hw, !Hfault.
  (* ensureDir *)
  cbn [Fs.apply].
  assert (Fs.mkdirs f (P ++ ["src"]) =
          Some (<[P ++ ["src"] := Dir]> (<[P := Dir]> f))) as ->.
  { rewrite HP. rewrite <- (app_assoc C [name] ["src"]). cbn [app].
    apply mkdirs_two; [done| |].
    - rewrite <- HP. done.
    - change (C ++ [name; "src"]) with (C ++ [name] ++ ["src"]).
      rewrite app_assoc, <- HP. apply below_target_free. }
  cbn beta iota zeta delta [fs log]. rewrite !Hfault.
  set (f1 := <[P ++ ["src"] := Dir]> (<[P := Dir]> f)).
  assert (dirs f1 (P ++ ["src"])) as Hd1.
  { apply dirs_snoc. rewrite HP. apply dirs_snoc. done. }
  assert (dirs f1 P) as Hd1P.
  { intros q Hq. apply Hd1. by apply prefix_app_r. }
  (* index.ts *)
  cbn [Fs.apply].
  rewrite (copy_file_fresh f1 _ (P ++ ["src"; "index.ts"]) idx).
  2: { unfold f1. rewrite !lookup_insert_ne; [done|..].
       - by eapply template_not_target.
       - by eapply template_outside. }
  2: { unfold f1. rewrite !lookup_insert_ne by path_ne. apply below_target_free. }
  2: { by rewrite parent_snoc2. }
  cbn beta iota zeta delta [fs log]. rewrite !Hfault.
  set (f2 := <[P ++ ["src"; "index.ts"] := File idx]> f1).
  assert (dirs f2 P) as Hd2.
  { apply dirs_insert_other; [done|]. by apply not_prefix_longer. }
  (* .gitignore *)
  cbn [Fs.apply].
  rewrite (copy_file_fresh f2 _ (P ++ [".gitignore"]) ign).
  2: { unfold f2, f1. rewrite !lookup_insert_ne; [done|..].
       - by eapply template_not_target.
       - by eapply template_outside.
       - by eapply template_outside. }
  2: { unfold f2, f1. rewrite !lookup_insert_ne by path_ne. apply below_target_free. }
  2: { by rewrite parent_snoc. }
  cbn beta iota zeta delta [fs log]. rewrite !Hfault.
  set (f3 := <[P ++ [".gitignore"] := File ign]> f2).
  assert (dirs f3 P) as Hd3.
  { apply dirs_insert_other; [done|]. by apply not_prefix_longer. }
  (* the manifest *)
  assert (Fs.readFile f3 (join T ["base"; "package.template.json"]) = Some tpl) as ->.
  { unfold Fs.readFile, f3, f2, f1. rewrite !lookup_insert_ne; [by rewrite Htpl|..].
    - by eapply template_not_target.
    - by eapply template_outside.
    - by eapply template_outside.
    - by eapply template_outside. }
  cbn beta iota zeta delta [fs log]. rewrite !Hfault.
  cbn [Fs.apply]. rewrite (writeFile_fresh f3).
  2: { rewrite parent_snoc. by apply Hd3. }
  2: { unfold f3, f2, f1. rewrite !lookup_insert_ne by path_ne.
       apply below_target_free. }
  cbn beta iota zeta delta [fs log]. rewrite !Hfault.
  (* tsconfig.json *)
  cbn [Fs.apply]. fold man. fold f1 f2 f3.
  destruct (Fs.copy _ _ _); cbn beta iota zeta delta [fs log];
    by rewrite <- !app_assoc.
Qed.

(** With the configuration template a file, every call succeeds. *)
Lemma materialize_run cfg w :
  f !! tsconfigSourcePath T t = Some (File cfg) ->
  fs w = f ->
  copyProjectFiles env T P name t w =
    (Ok tt,
     {| fs := targetTree P idx ign man cfg f;
        log := log w ++ okCalls (materializeCalls T P name t tpl) |}).
Proof using All.
  intros Hcfg Hw. rewrite (materialize_steps w Hw).
  rewrite (copy_file_fresh _ _ _ cfg).
  - unfold targetTree, config, materializeCalls, okCalls. cbn [map take app].
    by rewrite !target_join by (repeat constructor).
  - unfold partialTree. rewrite !lookup_insert_ne; [done|..].
    + by eapply template_not_target.
    + by eapply template_outside.
    + by eapply template_outside.
    + by eapply template_outside.
    + by eapply template_outside.
  - unfold partialTree. rewrite !lookup_insert_ne by path_ne.
    apply below_target_free.
  - rewrite parent_snoc. apply dirs_partialTree.
Qed.

(** Without the configuration template, the last call fails. *)
Lemma materialize_without_config w :
  f !! tsconfigSourcePath T t = None ->
  fs w = f ->
  copyProjectFiles env T P name t w =
    (Throw (FsError config),
     {| fs := partialTree P idx ign man f;
        log := log w ++ okCalls (take 5 (materializeCalls T P name t tpl)) ++
               [EvFs config false] |}).
Proof using All.
  intros Hnone Hw. rewrite (materialize_steps w Hw).
  assert (partialTree P idx ign man f !! tsconfigSourcePath T t = None) as Hsrc.
  { unfold partialTree. rewrite !lookup_insert_ne; [done|..];
      rewrite tsconfigSourcePath_segments;
      change (normalize T ++ ["tsconfig"; strictnessName t +:+ ".json"])
        with (normalize T ++ ["tsconfig"] ++ [strictnessName t +:+ ".json"]);
      rewrite app_assoc.
    - rewrite (projectPathOf_child env name Hname : P = _).
      apply last_differs. intros ->.
      pose proof (name_chars_lack "." _ Hname dot_not_name_char "") as Hd.
      destruct t; vm_compute in Hd; discriminate Hd.
    - apply last_differs. destruct t; intros H; vm_compute in H; discriminate H.
    - change (P ++ ["src"; "index.ts"]) with (P ++ ["src"] ++ ["index.ts"]).
      rewrite app_assoc. apply last_differs.
      destruct t; intros H; vm_compute in H; discriminate H.
    - apply last_differs. destruct t; intros H; vm_compute in H; discriminate H.
    - apply last_differs. destruct t; intros H; vm_compute in H; discriminate H. }
  unfold Fs.copy. by rewrite Hsrc.
Qed.
End Materialize.

(** ** The cases of the test suite, run on the embedding *)

Example validate_empty : validate "" = Some "Project name is required".
Proof. reflexivity. Qed.

Example validate_invalid :
  map validate ["my app"; "my@app"; "my.app"] =
  [Some "Only letters, numbers, hyphens and underscores allowed";
   Some "Only letters, numbers, hyphens and underscores allowed";
   Some "Only letters, numbers, hyphens and underscores allowed"].
Proof. reflexivity. Qed.

Example validate_valid :
  map validate ["my-app"; "my_app"; "myapp123"; "MyApp"] = [None; None; None; None].
Proof. reflexivity. Qed.

Example placeholder_replaced :
  Replace.replace_global PLACEHOLDER "test-project" Sample.manifestTemplate =
  Js.concat ["{"; dq; "name"; dq; ": "; dq; "test-project"; dq; ", ";
             dq; "version"; dq; ": "; dq; "1.0.0"; dq; "}"].
Proof. reflexivity. Qed.

Example lock_file_missing :
  outcome_of (createProject (Sample.envWith true false true (Sample.answers false))
                (Sample.choices false)) (Sample.start Sample.disk) =
  Throw (JsError "package-lock.json was not generated").
Proof. vm_compute. reflexivity. Qed.

Example git_failure_handled :
  outcome_of (createProject (Sample.envWith true true false (Sample.answers true))
                (Sample.choices true)) (Sample.start Sample.disk) = Ok tt /\
  last (events_of (createProject (Sample.envWith true true false (Sample.answers true))
                     (Sample.choices true)) (Sample.start Sample.disk)) =
  Some gitWarning.
Proof. split; vm_compute; reflexivity. Qed.

Example development_templates_used :
  templatesDirectoryIn (Sample.envWith true true true (Sample.answers true)) ∅ =
  ["opt"; "tool"; "src"; "templates"].
Proof. vm_compute. reflexivity. Qed.

(** What the validator keeps out: a replacement text with a dollar pattern
    puts the placeholder back, and a name with dots and slashes leaves the
    working directory. *)
Example dollar_pattern_not_verbatim :
  Replace.replace_global PLACEHOLDER "$&" Sample.manifestTemplate =
  Sample.manifestTemplate.
Proof. reflexivity. Qed.

Example dotted_name_escapes :
  projectPathOf (Sample.envWith true true true (Sample.answers true)) "../../etc" =
  ["etc"].
Proof. vm_compute. reflexivity. Qed.

(** ** The target directory *)

Lemma tree_shapedb_sound (f : FS) : tree_shapedb f = true -> tree_shaped f.
Proof.
  unfold tree_shapedb. intros H%bool_decide_eq_true p x [n Hn].
  specialize (H _ _ Hn). cbn beta in H. rewrite parent_snoc in H.
  destruct H as [H|H]; [by destruct p|done].
Qed.

Lemma targetTree_outside (P : path) (idx ign man cfg : string) (f : FS) q :
  ~ within P q -> targetTree P idx ign man cfg f !! q = f !! q.
Proof.
  intros Hq. unfold targetTree, partialTree.
  rewrite !lookup_insert_ne; [done|..]; intros <-; apply Hq; unfold within;
    first [ by apply prefix_app_r | done ].
Qed.

Lemma targetTree_within (P : path) (idx ign man cfg : string) (f : FS) q n :
  tree_shaped f -> f !! P = None -> within P q ->
  targetTree P idx ign man cfg f !! q = Some n <->
  (q, n) ∈ targetEntries P idx ign man cfg.
Proof.
  intros Ht HP Hq. unfold targetTree, partialTree, targetEntries.
  rewrite !elem_of_cons, elem_of_nil.
  assert (f !! q = None) as Hf by by eapply tree_below.
  rewrite !lookup_insert. repeat case_decide; subst; rewrite ?Hf.
  all: split;
    [ intros Hx; first [discriminate Hx | injection Hx as <-; tauto] | ].
  all: intros Hx; repeat (destruct Hx as [Hx|Hx]); try done.
  all: try (injection Hx as Hx <-; first [done | exfalso; revert Hx; path_ne ]).
  all: try (injection Hx as Hx _; exfalso; first [congruence | revert Hx; path_ne]).
  all: by simplify_eq.
Qed.

Lemma user_cancels_choices env : user_cancels env <-> choicesOf env = None.
Proof.
  unfold user_cancels, choicesOf.
  destruct (acceptedName env), (strictnessAnswer (script env)),
    (gitAnswer (script env)); intuition congruence.
Qed.

Lemma ui_not_git e : is_ui e = true -> is_git e = false.
Proof. by destruct e. Qed.

Lemma ui_not_write_nor_exec e :
  is_ui e = true -> is_write e = false /\ is_exec e = false.
Proof. by destruct e. Qed.

Lemma main_observed env w uis c :
  main env w =
    (mainOutcome (outcome_of (createProject env c) w),
     {| fs := fs_after (createProject env c) w;
        log := log w ++ uis ++ events_of (createProject env c) w ++
               mainTail c (outcome_of (createProject env c) w) |}) ->
  outcome_of (main env) w = mainOutcome (outcome_of (createProject env c) w) /\
  fs_after (main env) w = fs_after (createProject env c) w /\
  events_of (main env) w =
    uis ++ events_of (createProject env c) w ++
    mainTail c (outcome_of (createProject env c) w).
Proof. apply run_observed. Qed.

(** * The claims *)

(** C1.  When the resolved target path exists already, as a file or as a
    directory, [createProject] ends the process with exit code 1; the file
    system is left as it was and no writing call and no subprocess is in
    the log.  The same holds for the whole of [main] when the prompts gave
    the record. *)
Theorem existing_target_is_fatal env c w :
  is_Some (fs w !! projectPathOf env (projectName c)) ->
  (outcome_of (createProject env c) w = Exit 1 /\
   fs_after (createProject env c) w = fs w /\
   Forall (fun e => is_write e = false /\ is_exec e = false)
     (events_of (createProject env c) w)) /\
  (choicesOf env = Some c ->
   exit_code (outcome_of (main env) w) = 1 /\
   fs_after (main env) w = fs w /\
   Forall (fun e => is_write e = false /\ is_exec e = false)
     (events_of (main env) w)).
Proof.
  intros Hex.
  assert (Fs.existsSync (fs w) (projectPathOf env (projectName c)) = true) as Hb.
  { unfold Fs.existsSync. by apply bool_decide_eq_true. }
  assert (fs_after (createProject env c) w = fs w) as Hfs.
  { unfold fs_after, createProject, getTemplatesDirectory, existsSync, ui, emit,
      bind, ret, process_exit.
    cbn beta iota zeta delta [fs log fst snd].
    destruct (Fs.existsSync (fs w) (join (currentDirectory env) ["templates"]));
      cbn beta iota zeta delta [fs log fst snd]; by rewrite Hb. }
  assert (outcome_of (createProject env c) w = Exit 1 /\
          Forall (fun e => is_write e = false /\ is_exec e = false)
            (events_of (createProject env c) w)) as [Ho He].
  { pose proof (createProject_shape env c w) as H.
    destruct H as [P HP | ? ? P HP _ | ? ? ? P HP _ _ | ? ? P HP _ _ _
                  | ? ? ? ? P HP _ _ _ _]; subst P; try congruence.
    split; [done|]. by repeat constructor. }
  split; [done|]. intros Hc.
  destruct (main_run env w) as (uis & Huis & Hmain). rewrite Hc in Hmain.
  apply main_observed in Hmain as (Hmo & Hmf & Hme).
  rewrite Hmo, Hmf, Hme, Ho, Hfs. cbn. split; [done|]. split; [done|].
  rewrite app_nil_r. apply Forall_app. split; [|done].
  eapply Forall_impl; [exact Huis|]. apply ui_not_write_nor_exec.
Qed.

(** C1, at the sample installation with [/home/u/demo-app] taken. *)
Lemma existing_target_is_fatal_witness :
  is_Some (fs (Sample.start Sample.diskTaken) !!
             projectPathOf (Sample.envWith true true true (Sample.answers true))
               (projectName (Sample.choices true))) /\
  outcome_of (createProject (Sample.envWith true true true (Sample.answers true))
                (Sample.choices true))
    (Sample.start Sample.diskTaken) = Exit 1.
Proof.
  assert (is_Some (fs (Sample.start Sample.diskTaken) !!
             projectPathOf (Sample.envWith true true true (Sample.answers true))
               (projectName (Sample.choices true)))) as H.
  { vm_compute. eexists. reflexivity. }
  split; [exact H|].
  exact (proj1 (proj1 (existing_target_is_fatal _ _ _ H))).
Defined.

(** C2.  When the log of a run of [createProject] shows the install
    subprocess exiting with a code other than zero, or exiting with code zero
    and the check for [package-lock.json] that follows finding nothing,
    [createProject] ends with a thrown error and no [git] subprocess is in
    the log.  (The install subprocess is only started after a successful
    materialization.) *)
Theorem install_failure_stops_before_git env c w :
  let evs := events_of (createProject env c) w in
  let P := projectPathOf env (projectName c) in
  (EvExec "npm" ["install"] P false ∈ evs \/
   [EvExec "npm" ["install"] P true;
    EvExists (Path.join P ["package-lock.json"]) false] `sublist_of` evs) ->
  (exists e, outcome_of (createProject env c) w = Throw e) /\
  Forall (fun e => is_git e = false) evs.
Proof.
  cbv zeta. pose proof (createProject_shape env c w) as H.
  created_cases H; intros [H|H];
    try (elem_inv H; fail); try (sub_inv H; fail);
    (split; [eauto | repeat constructor]).
Qed.

(** C2, at the sample installation: once with [npm] failing, once with
    [npm] leaving no lock file. *)
Lemma install_failure_stops_before_git_witness :
  (exists e,
     outcome_of (createProject (Sample.envWith false false true (Sample.answers true))
                   (Sample.choices true)) (Sample.start Sample.disk) = Throw e) /\
  (exists e,
     outcome_of (createProject (Sample.envWith true false true (Sample.answers true))
                   (Sample.choices true)) (Sample.start Sample.disk) = Throw e).
Proof.
  split.
  - refine (proj1 (install_failure_stops_before_git
                     (Sample.envWith false false true (Sample.answers true))
                     (Sample.choices true) (Sample.start Sample.disk) _)).
    left. apply list_elem_of_In. vm_compute.
    repeat first [ left; reflexivity | right ].
  - refine (proj1 (install_failure_stops_before_git
                     (Sample.envWith true false true (Sample.answers true))
                     (Sample.choices true) (Sample.start Sample.disk) _)).
    right. vm_compute. solve_sublist.
Defined.

(** C3.  When the prompts gave the record [c] and the log of the run of
    [createProject] shows a [git] subprocess failing, [createProject] still
    ends normally, the warning is in the log, and [main] prints the success
    message and ends with exit code 0. *)
Theorem git_failure_is_not_fatal env c w args cwd :
  choicesOf env = Some c ->
  EvExec "git" args cwd false ∈ events_of (createProject env c) w ->
  outcome_of (createProject env c) w = Ok tt /\
  gitWarning ∈ events_of (createProject env c) w /\
  exit_code (outcome_of (main env) w) = 0 /\
  gitWarning ∈ events_of (main env) w /\
  EvUi (POutro (successMessage c)) ∈ events_of (main env) w.
Proof.
  intros Hc Hgit.
  assert (outcome_of (createProject env c) w = Ok tt /\
          gitWarning ∈ events_of (createProject env c) w) as [Ho Hw].
  { pose proof (createProject_shape env c w) as H. revert Hgit.
    created_cases H; intros H; try (elem_inv H; fail);
      (split; [reflexivity | solve_elem]). }
  split; [done|]. split; [done|].
  destruct (main_run env w) as (uis & Huis & Hmain). rewrite Hc in Hmain.
  apply main_observed in Hmain as (Hmo & _ & Hme).
  rewrite Hmo, Hme, Ho. cbn [mainOutcome exit_code mainTail].
  split; [done|]. split.
  - apply elem_of_app. right. apply elem_of_app. by left.
  - apply elem_of_app. right. apply elem_of_app. right.
    unfold events_of, displaySuccessMessage, bind, ui, emit. cbn.
    apply list_elem_of_further, list_elem_of_here.
Qed.

(** C3, at the sample installation with [git] failing. *)
Lemma git_failure_is_not_fatal_witness :
  exit_code (outcome_of (main (Sample.envWith true true false (Sample.answers true)))
               (Sample.start Sample.disk)) = 0.
Proof.
  refine (proj1 (proj2 (proj2 (git_failure_is_not_fatal
            (Sample.envWith true true false (Sample.answers true))
            (Sample.choices true) (Sample.start Sample.disk)
            ["init"] ["home"; "u"; "demo-app"] _ _)))).
  - vm_compute. reflexivity.
  - apply list_elem_of_In. vm_compute.
    repeat first [ left; reflexivity | right ].
Defined.

(** C5.  When [initGit] is false, no [git] subprocess is in the log of
    [createProject], whatever the file system, the faults and the
    subprocesses do; nor in the log of [main] when the prompts gave that
    record. *)
Theorem no_git_unless_chosen env c w :
  initGit c = false ->
  Forall (fun e => is_git e = false) (events_of (createProject env c) w) /\
  (choicesOf env = Some c ->
   Forall (fun e => is_git e = false) (events_of (main env) w)).
Proof.
  intros Hg.
  assert (Forall (fun e => is_git e = false) (events_of (createProject env c) w))
    as Hcp.
  { pose proof (createProject_shape env c w) as H.
    created_cases H; try congruence; repeat constructor. }
  split; [done|]. intros Hc.
  destruct (main_run env w) as (uis & Huis & Hmain). rewrite Hc in Hmain.
  apply main_observed in Hmain as (_ & _ & ->).
  apply Forall_app. split.
  { eapply Forall_impl; [exact Huis|]. apply ui_not_git. }
  apply Forall_app. split; [done|].
  destruct (outcome_of (createProject env c) w) as [[]|e|k]; cbn;
    unfold events_of, displaySuccessMessage, bind, ui, emit; cbn;
    repeat constructor.
Qed.

(** C5, at the sample installation, the user declining git. *)
Lemma no_git_unless_chosen_witness :
  Forall (fun e => is_git e = false)
    (events_of (main (Sample.envWith true true true (Sample.answers false)))
       (Sample.start Sample.disk)).
Proof.
  refine (proj2 (no_git_unless_chosen
            (Sample.envWith true true true (Sample.answers false))
            (Sample.choices false) (Sample.start Sample.disk) _) _).
  - reflexivity.
  - vm_compute. reflexivity.
Defined.

(** C7.  In the log of every run of [createProject]: a writing call comes
    after the check that found the target absent; the install subprocess
    comes after that check and after every call of the materialization has
    succeeded, in their order; a [git] subprocess comes after all that and
    after the install subprocess has exited with code zero and the lock file
    has been found. *)
Theorem stages_run_in_order env c w :
  let evs := events_of (createProject env c) w in
  (forall pre e post, evs = pre ++ e :: post -> is_write e = true ->
     EvExists (projectPathOf env (projectName c)) false ∈ pre) /\
  (forall pre e post, evs = pre ++ e :: post -> is_npm e = true ->
     materialized_in env c pre) /\
  (forall pre e post, evs = pre ++ e :: post -> is_git e = true ->
     materialized_in env c pre /\ installed_in env c pre).
Proof.
  cbv zeta. pose proof (createProject_shape env c w) as H.
  created_cases H.
  all: split; [|split]; intros pre e post Hs He.
  all: split_inv Hs; try discriminate He.
  all: try (solve_elem; fail).
  all: try (unfold materialized_in, materializeCalls, tsconfigSourcePath;
            eexists _, _; cbn [map]; solve_sublist; fail).
  all: split.
  all: try (unfold materialized_in, materializeCalls, tsconfigSourcePath;
            eexists _, _; cbn [map]; solve_sublist; fail).
  all: unfold installed_in; solve_sublist.
Qed.

(** C7, at the sample installation: what precedes the install subprocess. *)
Lemma stages_run_in_order_witness :
  materialized_in (Sample.envWith true true true (Sample.answers true))
    (Sample.choices true)
    (take 11
       (events_of (createProject (Sample.envWith true true true (Sample.answers true))
                     (Sample.choices true)) (Sample.start Sample.disk))).
Proof.
  refine (proj1 (proj2 (stages_run_in_order
            (Sample.envWith true true true (Sample.answers true))
            (Sample.choices true) (Sample.start Sample.disk))) _
            (EvExec "npm" ["install"] ["home"; "u"; "demo-app"] true)
            (drop 12
               (events_of (createProject
                             (Sample.envWith true true true (Sample.answers true))
                             (Sample.choices true)) (Sample.start Sample.disk)))
            _ _).
  - vm_compute. reflexivity.
  - reflexivity.
Defined.

(** C4.  For a name of the pattern, a target path that is free, a file
    system shaped as a tree in which the working directory exists, no
    outside fault and the four templates present as files: the
    materialization ends normally; below the target path there are then
    exactly the target directory, its [src] directory, the entry file, the
    ignore file, the manifest and the configuration file of the chosen
    strictness; the manifest is the template with the pieces between the
    placeholders joined by the name, it holds no placeholder when the only
    double opening braces of the template are those of placeholders, and it
    holds the name when the template holds a placeholder; outside the target
    path the file system is as before, the templates included, and every
    writing call writes below the target path. *)
Theorem materialization_makes_the_project env c w (idx ign tpl cfg : string) :
  let name := projectName c in
  let P := projectPathOf env name in
  let T := templatesDirectoryIn env (fs w) in
  let man := Replace.replace_global PLACEHOLDER name tpl in
  let m := copyProjectFiles env T P name (tsStrictness c) in
  matches_name_pattern name ->
  fs w !! P = None ->
  tree_shaped (fs w) ->
  fs w !! Path.resolve (process_cwd env) [process_cwd env] = Some Dir ->
  (forall op g, io_fault env op g = false) ->
  TemplatesIn T (tsStrictness c) (fs w) idx ign tpl cfg ->
  outcome_of m w = Ok tt /\
  (forall q n, Path.within P q ->
     fs_after m w !! q = Some n <-> (q, n) ∈ targetEntries P idx ign man cfg) /\
  (man = Js.join name (Replace.pieces PLACEHOLDER tpl) /\
   tpl = Js.join PLACEHOLDER (Replace.pieces PLACEHOLDER tpl) /\
   Forall (fun seg => Js.includes PLACEHOLDER seg = false)
     (Replace.pieces PLACEHOLDER tpl)) /\
  (braces_open_placeholders_only tpl -> Js.includes PLACEHOLDER man = false) /\
  (Js.includes PLACEHOLDER tpl = true -> Js.includes name man = true) /\
  (forall q, ~ Path.within P q -> fs_after m w !! q = fs w !! q) /\
  TemplatesIn T (tsStrictness c) (fs_after m w) idx ign tpl cfg /\
  Forall (fun e => forall op ok p,
            e = EvFs op ok -> write_target op = Some p -> Path.within P p)
    (events_of m w).
Proof.
  intros name P T man m Hname Habs Htree Hcwd Hfault Htpl.
  pose proof (materialize_run env name (tsStrictness c) T (fs w) idx ign tpl
                Hfault Hname Htree Hcwd Habs (TemplatesIn_base _ _ _ _ _ _ _ Htpl)
                cfg w (tsconfig_template _ _ _ _ _ _ _ Htpl) eq_refl) as Hrun.
  apply run_observed in Hrun as (Ho & Hf & He).
  fold P m man in Ho, Hf, He.
  destruct (manifest_of_accepted_name name tpl Hname) as (Hm1 & Hm2 & Hm3 & Hm4 & Hm5).
  assert (forall q, ~ within P q -> fs_after m w !! q = fs w !! q) as Hout.
  { intros q Hq. rewrite Hf. by apply targetTree_outside. }
  assert (forall src n, fs w !! src = Some n -> ~ within P src) as Hsrc.
  { intros src n Hn [k ->].
    pose proof (below_target_free env name (fs w) Htree Habs k) as Hb.
    fold P in Hb. congruence. }
  split; [done|]. split.
  { intros q n Hq. rewrite Hf. by apply targetTree_within. }
  split; [done|]. split; [done|]. split; [done|]. split; [done|]. split.
  { destruct Htpl as [H1 H2 H3 H4].
    split; (rewrite Hout; [done|by eapply Hsrc]). }
  rewrite He. unfold materializeCalls, okCalls. cbn [map].
  fold P. rewrite !(target_join env name) by (repeat constructor).
  repeat constructor; intros op ok p [= <- _] [= <-]; unfold within;
    by apply prefix_app_r.
Qed.

(** C4, at the sample installation. *)
Lemma materialization_makes_the_project_witness :
  outcome_of
    (copyProjectFiles (Sample.envWith true true true (Sample.answers true))
       Sample.templates ["home"; "u"; "demo-app"] "demo-app" strict)
    (Sample.start Sample.disk) = Ok tt /\
  Js.includes "demo-app"
    (Replace.replace_global PLACEHOLDER "demo-app" Sample.manifestTemplate) = true.
Proof.
  pose proof (materialization_makes_the_project
                (Sample.envWith true true true (Sample.answers true))
                (Sample.choices true) (Sample.start Sample.disk)
                "import express" "node_modules" Sample.manifestTemplate
                "strict: true, more") as H.
  cbv zeta in H.
  assert (matches_name_pattern (projectName (Sample.choices true))) as H1.
  { apply validate_accepts. vm_compute. reflexivity. }
  assert (fs (Sample.start Sample.disk) !!
            projectPathOf (Sample.envWith true true true (Sample.answers true))
              (projectName (Sample.choices true)) = None) as H2.
  { vm_compute. reflexivity. }
  assert (tree_shaped (fs (Sample.start Sample.disk))) as H3.
  { apply tree_shapedb_sound. vm_compute. reflexivity. }
  assert (fs (Sample.start Sample.disk) !!
            resolve (process_cwd (Sample.envWith true true true (Sample.answers true)))
              [process_cwd (Sample.envWith true true true (Sample.answers true))] =
          Some Dir) as H4.
  { vm_compute. reflexivity. }
  assert (forall op g,
            io_fault (Sample.envWith true true true (Sample.answers true)) op g = false)
    as H5.
  { intros op g. reflexivity. }
  assert (TemplatesIn
            (templatesDirectoryIn (Sample.envWith true true true (Sample.answers true))
               (fs (Sample.start Sample.disk)))
            (tsStrictness (Sample.choices true)) (fs (Sample.start Sample.disk))
            "import express" "node_modules" Sample.manifestTemplate
            "strict: true, more") as H6.
  { split; vm_compute; reflexivity. }
  specialize (H H1 H2 H3 H4 H5 H6).
  destruct H as (Ho & _ & _ & _ & Hn & _).
  split; [exact Ho|]. apply Hn. vm_compute. reflexivity.
Defined.

(** C6.  [tsconfigSourcePath] maps each of the three strictness levels to
    the file of its name in the [tsconfig] directory of the templates, and
    different levels to different files.  For a name of the pattern, a
    target path that is free, a file system shaped as a tree in which the
    working directory exists, no outside fault and the three other templates
    present as files: when the template of the chosen level is a file of
    content [cfg], the materialization ends normally, [tsconfig.json] of the
    target is a file of content [cfg] and the template is as before; when
    there is no such template, the materialization fails at that copy and
    the target has no [tsconfig.json]. *)
Theorem strictness_selects_the_configuration env c w (idx ign tpl : string) :
  let name := projectName c in
  let P := projectPathOf env name in
  let T := templatesDirectoryIn env (fs w) in
  let m := copyProjectFiles env T P name (tsStrictness c) in
  let source := tsconfigSourcePath T (tsStrictness c) in
  matches_name_pattern name ->
  fs w !! P = None ->
  tree_shaped (fs w) ->
  fs w !! Path.resolve (process_cwd env) [process_cwd env] = Some Dir ->
  (forall op g, io_fault env op g = false) ->
  BaseTemplatesIn T (fs w) idx ign tpl ->
  (forall D t,
     tsconfigSourcePath D t =
     Path.normalize D ++ ["tsconfig"; strictnessName t +:+ ".json"]) /\
  (forall D t1 t2, tsconfigSourcePath D t1 = tsconfigSourcePath D t2 -> t1 = t2) /\
  (forall cfg,
     fs w !! source = Some (File cfg) ->
     outcome_of m w = Ok tt /\
     fs_after m w !! (P ++ ["tsconfig.json"]) = Some (File cfg) /\
     fs_after m w !! source = Some (File cfg) /\
     EvFs (OpCopy source (P ++ ["tsconfig.json"])) true ∈ events_of m w) /\
  (fs w !! source = None ->
   outcome_of m w = Throw (FsError (OpCopy source (P ++ ["tsconfig.json"]))) /\
   fs_after m w !! (P ++ ["tsconfig.json"]) = None).
Proof.
  intros name P T m source Hname Habs Htree Hcwd Hfault Hbase.
  split; [exact tsconfigSourcePath_segments|]. split.
  { intros D t1 t2. rewrite !tsconfigSourcePath_segments. intros H%app_inv_head.
    destruct t1, t2; done. }
  pose proof (target_join env name ["tsconfig.json"]) as Hjoin. fold P in Hjoin.
  split.
  - intros cfg Hcfg.
    pose proof (materialize_run env name (tsStrictness c) T (fs w) idx ign tpl
                  Hfault Hname Htree Hcwd Habs Hbase cfg w Hcfg eq_refl) as Hrun.
    apply run_observed in Hrun as (Ho & Hf & He). fold P m in Ho, Hf, He.
    split; [done|]. split.
    { rewrite Hf. unfold targetTree. apply lookup_insert_eq. }
    split.
    { rewrite Hf, targetTree_outside; [done|].
      intros [k Hk].
      pose proof (below_target_free env name (fs w) Htree Habs k) as Hb.
      fold P in Hb. fold source in Hk. rewrite <- Hk in Hb. congruence. }
    rewrite He. unfold materializeCalls, okCalls. cbn [map].
    fold P source. rewrite Hjoin by (repeat constructor).
    solve_elem.
  - intros Hnone.
    pose proof (materialize_without_config env name (tsStrictness c) T (fs w)
                  idx ign tpl Hfault Hname Htree Hcwd Habs Hbase w Hnone eq_refl)
      as Hrun.
    apply run_observed in Hrun as (Ho & Hf & _). fold P m source in Ho, Hf.
    rewrite Hjoin in Ho by (repeat constructor).
    split; [done|]. rewrite Hf. unfold partialTree.
    rewrite !lookup_insert_ne by path_ne.
    apply (below_target_free env name (fs w) Htree Habs).
Qed.

(** C6, at the sample installation. *)
Lemma strictness_selects_the_configuration_witness :
  fs_after
    (copyProjectFiles (Sample.envWith true true true (Sample.answers true))
       Sample.templates ["home"; "u"; "demo-app"] "demo-app" strict)
    (Sample.start Sample.disk) !! ["home"; "u"; "demo-app"; "tsconfig.json"] =
  Some (File "strict: true, more").
Proof.
  pose proof (strictness_selects_the_configuration
                (Sample.envWith true true true (Sample.answers true))
                (Sample.choices true) (Sample.start Sample.disk)
                "import express" "node_modules" Sample.manifestTemplate) as H.
  cbv zeta in H.
  assert (matches_name_pattern (projectName (Sample.choices true))) as H1.
  { apply validate_accepts. vm_compute. reflexivity. }
  assert (fs (Sample.start Sample.disk) !!
            projectPathOf (Sample.envWith true true true (Sample.answers true))
              (projectName (Sample.choices true)) = None) as H2.
  { vm_compute. reflexivity. }
  assert (tree_shaped (fs (Sample.start Sample.disk))) as H3.
  { apply tree_shapedb_sound. vm_compute. reflexivity. }
  assert (fs (Sample.start Sample.disk) !!
            resolve (process_cwd (Sample.envWith true true true (Sample.answers true)))
              [process_cwd (Sample.envWith true true true (Sample.answers true))] =
          Some Dir) as H4.
  { vm_compute. reflexivity. }
  assert (forall op g,
            io_fault (Sample.envWith true true true (Sample.answers true)) op g = false)
    as H5.
  { intros op g. reflexivity. }
  assert (BaseTemplatesIn
            (templatesDirectoryIn (Sample.envWith true true true (Sample.answers true))
               (fs (Sample.start Sample.disk)))
            (fs (Sample.start Sample.disk))
            "import express" "node_modules" Sample.manifestTemplate) as H6.
  { split; vm_compute; reflexivity. }
  specialize (H H1 H2 H3 H4 H5 H6).
  destruct H as (_ & _ & Hc & _).
  refine (proj1 (proj2 (Hc "strict: true, more" _))).
  vm_compute. reflexivity.
Defined.

(** C8.  The validator accepts exactly the strings of the pattern
    [[A-Za-z0-9_-]+]; the name of every record that [runPrompts] returns is
    such a string, and the record is the one made of the answers of the
    user; [main] hands that record to [createProject] and builds its final
    message from the same record. *)
Theorem prompts_give_a_valid_record :
  (forall value, validate value = None <-> matches_name_pattern value) /\
  (forall env w c w',
     runPrompts env w = (Ok (Some c), w') ->
     choicesOf env = Some c /\ matches_name_pattern (projectName c)) /\
  (forall env w c,
     choicesOf env = Some c ->
     outcome_of (main env) w = mainOutcome (outcome_of (createProject env c) w) /\
     exists uis,
       Forall (fun e => is_ui e = true) uis /\
       events_of (main env) w =
         uis ++ events_of (createProject env c) w ++
         mainTail c (outcome_of (createProject env c) w)).
Proof.
  split; [exact validate_accepts|]. split.
  - intros env w c w' Hrun.
    destruct (runPrompts_run env w) as (uis & _ & Heq). rewrite Heq in Hrun.
    destruct (choicesOf env) as [c'|] eqn:Hc; [|discriminate].
    injection Hrun as -> _. split; [done|].
    unfold choicesOf in Hc.
    destruct (acceptedName env) as [n|] eqn:Hn; [|discriminate].
    destruct (strictnessAnswer (script env)); [|discriminate].
    destruct (gitAnswer (script env)); [|discriminate].
    injection Hc as <-. cbn. apply validate_accepts.
    unfold acceptedName in Hn. apply head_Some_elem_of in Hn.
    by apply list_elem_of_filter in Hn as [Hn _].
  - intros env w c Hc.
    destruct (main_run env w) as (uis & Huis & Hmain). rewrite Hc in Hmain.
    apply main_observed in Hmain as (Hmo & _ & Hme). eauto.
Qed.

(** C8, for the record of the sample answers. *)
Lemma prompts_give_a_valid_record_witness :
  matches_name_pattern
    (projectName (Sample.choices true)).
Proof.
  refine (proj2 (proj1 (proj2 prompts_give_a_valid_record)
                   (Sample.envWith true true true (Sample.answers true))
                   (Sample.start Sample.disk) (Sample.choices true)
                   (runPrompts (Sample.envWith true true true (Sample.answers true))
                      (Sample.start Sample.disk)).2 _)).
  vm_compute. reflexivity.
Defined.

(** C9.  When the user cancels at one of the three prompts, [main] ends
    the process with exit code 0, the file system is as it was, and the log
    holds nothing but terminal output: no file system call and no
    subprocess. *)
Theorem cancelling_creates_nothing env w :
  user_cancels env ->
  outcome_of (main env) w = Exit 0 /\
  exit_code (outcome_of (main env) w) = 0 /\
  fs_after (main env) w = fs w /\
  Forall (fun e => is_ui e = true) (events_of (main env) w).
Proof.
  intros Hc%user_cancels_choices.
  destruct (main_run env w) as (uis & Huis & Hmain). rewrite Hc in Hmain.
  apply run_observed in Hmain as (-> & -> & ->). done.
Qed.

(** C9, at the sample installation, the user cancelling at the second
    prompt. *)
Lemma cancelling_creates_nothing_witness :
  outcome_of (main (Sample.envWith true true true Sample.cancelled))
    (Sample.start Sample.disk) = Exit 0.
Proof.
  refine (proj1 (cancelling_creates_nothing
                   (Sample.envWith true true true Sample.cancelled)
                   (Sample.start Sample.disk) _)).
  right. left. reflexivity.
Defined.

(** C10.  A name the validator accepts holds no slash, no backslash, no
    dot and so no [..], and no dollar sign; the target path is the resolved
    working directory with the name as one more segment; and the replacement
    puts the name itself in the place of each placeholder. *)
Theorem accepted_name_stays_in_place env name :
  validate name = None ->
  (Js.includes "/" name = false /\ Js.includes "\" name = false /\
   Js.includes "." name = false /\ Js.includes ".." name = false /\
   Js.includes "$" name = false) /\
  projectPathOf env name =
    Path.resolve (process_cwd env) [process_cwd env] ++ [name] /\
  (forall matched before after,
     Replace.getSubstitution matched before after name = name) /\
  (forall tpl,
     Replace.replace_global PLACEHOLDER name tpl =
     Js.join name (Replace.pieces PLACEHOLDER tpl)).
Proof.
  intros Hn%validate_accepts.
  pose proof (name_chars_lack "$" name Hn dollar_not_name_char "") as Hd.
  split.
  { split; [apply (name_chars_lack _ _ Hn slash_not_name_char)|].
    split; [apply (name_chars_lack _ _ Hn backslash_not_name_char)|].
    split; [apply (name_chars_lack _ _ Hn dot_not_name_char)|].
    split; [apply (name_chars_lack _ _ Hn dot_not_name_char)|done]. }
  split; [by apply projectPathOf_child|]. split.
  - intros. by apply getSubstitution_verbatim.
  - intros. by apply replace_global_pieces.
Qed.

(** C10, for the name [demo-app] at the sample installation. *)
Lemma accepted_name_stays_in_place_witness :
  projectPathOf (Sample.envWith true true true (Sample.answers true)) "demo-app" =
  Path.resolve "/home/u" ["/home/u"] ++ ["demo-app"].
Proof.
  refine (proj1 (proj2 (accepted_name_stays_in_place
            (Sample.envWith true true true (Sample.answers true)) "demo-app" _))).
  vm_compute. reflexivity.
Defined.

(** * Further properties of the program *)

(** ** [main] *)

Lemma createProject_exit env c w k :
  outcome_of (createProject env c) w = Exit k ->
  k = 1 /\
  exists pre,
    events_of (createProject env c) w = pre ++ [existsMessage (projectName c)].
Proof.
  pose proof (createProject_shape env c w) as H.
  destruct H as [P HP | ? ? P HP _ | ? ? ? P HP _ _ | ? ? P HP _ _ _
                | ? ? ? ? P HP _ _ _ _]; try discriminate.
  intros [= <-]. split; [done|]. by eexists [_; _].
Qed.

Lemma last_app_two {A} (l : list A) a b : last (l ++ [a; b]) = Some b.
Proof.
  change (l ++ [a; b]) with (l ++ [a] ++ [b]). by rewrite app_assoc, last_snoc.
Qed.

(** X1.  [main] never ends with an error nobody caught: the process ends
    with exit code 0 or 1, and with 1 exactly when the prompts gave a record
    and [createProject] did not end normally for it. *)
Theorem main_exit_code env w :
  (forall e, outcome_of (main env) w <> Throw e) /\
  (exit_code (outcome_of (main env) w) = 0 \/
   exit_code (outcome_of (main env) w) = 1) /\
  (exit_code (outcome_of (main env) w) = 1 <->
   exists c, choicesOf env = Some c /\ outcome_of (createProject env c) w <> Ok tt).
Proof.
  destruct (main_run env w) as (uis & _ & Hmain).
  destruct (choicesOf env) as [c|].
  - apply main_observed in Hmain as (-> & _ & _).
    pose proof (createProject_exit env c w) as Hx.
    destruct (outcome_of (createProject env c) w) as [[]|e|k] eqn:Ho; cbn.
    + split; [done|]. split; [by left|]. split; [done|].
      intros (c' & [= <-] & Hne). by rewrite Ho in Hne.
    + split; [done|]. split; [by right|]. split; [|done].
      intros _. exists c. by rewrite Ho.
    + destruct (Hx k eq_refl) as [-> _].
      split; [done|]. split; [by right|]. split; [|done].
      intros _. exists c. by rewrite Ho.
  - apply run_observed in Hmain as (-> & _ & _). cbn.
    split; [done|]. split; [by left|]. split; [done|]. by intros (c' & ? & _).
Qed.

(** X1, at the sample installation with [npm] failing. *)
Lemma main_exit_code_witness :
  exit_code (outcome_of (main (Sample.envWith false false true (Sample.answers true)))
               (Sample.start Sample.disk)) = 1.
Proof.
  refine (proj2 (proj2 (proj2 (main_exit_code
            (Sample.envWith false false true (Sample.answers true))
            (Sample.start Sample.disk)))) _).
  exists (Sample.choices true). split.
  - vm_compute. reflexivity.
  - vm_compute. discriminate.
Defined.

(** X2.  When the prompts gave the record [c], the last output of [main] is
    the success message when [createProject] ended normally, the thrown
    error when it threw, and the message that the directory exists when it
    ended the process; a thrown error is printed right after the line
    [Error creating project]. *)
Theorem main_last_output env w c :
  choicesOf env = Some c ->
  last (events_of (main env) w) =
    Some (lastEventOf c (outcome_of (createProject env c) w)) /\
  (forall e, outcome_of (createProject env c) w = Throw e ->
     exists pre,
       events_of (main env) w =
       pre ++ [EvUi (PCancel "Error creating project"); EvUi (ConsoleError e)]).
Proof.
  intros Hc. destruct (main_run env w) as (uis & _ & Hmain). rewrite Hc in Hmain.
  apply main_observed in Hmain as (_ & _ & ->).
  pose proof (createProject_exit env c w) as Hx.
  destruct (outcome_of (createProject env c) w) as [[]|e|k]; cbn [mainTail lastEventOf].
  - split; [|done].
    unfold displaySuccessMessage, events_of, bind, ui, emit. cbn.
    rewrite !app_assoc. apply last_app_two.
  - split.
    + rewrite !app_assoc. apply last_app_two.
    + intros e' [= <-]. exists (uis ++ events_of (createProject env c) w).
      by rewrite <- app_assoc.
  - destruct (Hx k eq_refl) as [_ [pre ->]]. split; [|done].
    rewrite app_nil_r, app_assoc. apply last_snoc.
Qed.

(** X2, at the sample installation. *)
Lemma main_last_output_witness :
  last (events_of (main (Sample.envWith true true true (Sample.answers true)))
          (Sample.start Sample.disk)) =
  Some (lastEventOf (Sample.choices true)
          (outcome_of (createProject (Sample.envWith true true true (Sample.answers true))
                         (Sample.choices true)) (Sample.start Sample.disk))).
Proof.
  refine (proj1 (main_last_output
            (Sample.envWith true true true (Sample.answers true))
            (Sample.start Sample.disk) (Sample.choices true) _)).
  vm_compute. reflexivity.
Defined.

(** ** [runPrompts] and its validator *)



(** X4.  The validator answers [Project name is required] for the empty
    string and for no other; every other string that is not of the pattern
    gets the message about the allowed characters. *)
Theorem validate_messages value :
  (validate value = Some "Project name is required" <-> value = "") /\
  (value <> "" -> ~ matches_name_pattern value ->
   validate value = Some "Only letters, numbers, hyphens and underscores allowed").
Proof.
  split.
  - unfold validate. destruct value as [|a s]; cbn [Js.truthy negb]; [done|].
    destruct (negb _); split; discriminate.
  - intros Hne Hn. pose proof (validate_accepts value) as Ha.
    unfold validate in *. destruct value as [|a s]; [done|].
    cbn [Js.truthy negb] in *.
    destruct (negb _); [done|]. exfalso. apply Hn. by apply Ha.
Qed.

(** X4, for a name with a space. *)
Lemma validate_messages_witness :
  validate "my app" = Some "Only letters, numbers, hyphens and underscores allowed".
Proof.
  refine (proj2 (validate_messages "my app") _ _).
  - discriminate.
  - intros H%validate_accepts. vm_compute in H. discriminate H.
Defined.

Lemma classMatch_upper c :
  Regex.classMatch_i Regex.nameClass (asciiUpper c) =
  Regex.classMatch_i Regex.nameClass c.
Proof. destruct c as [[] [] [] [] [] [] [] []]; vm_compute; reflexivity. Qed.

Lemma classMatch_lower c :
  Regex.classMatch_i Regex.nameClass (asciiLower c) =
  Regex.classMatch_i Regex.nameClass c.
Proof. destruct c as [[] [] [] [] [] [] [] []]; vm_compute; reflexivity. Qed.

Lemma validate_mapChars f value :
  (forall c, Regex.classMatch_i Regex.nameClass (f c) =
             Regex.classMatch_i Regex.nameClass c) ->
  validate (mapChars f value) = validate value.
Proof.
  intros Hf. unfold validate, Regex.test_plus_i.
  destruct value as [|a s]; [done|].
  cbn [mapChars Js.truthy negb Js.chars list_ascii_of_string forallb].
  rewrite Hf. f_equal.
  assert (forallb (Regex.classMatch_i Regex.nameClass)
            (list_ascii_of_string (mapChars f s)) =
          forallb (Regex.classMatch_i Regex.nameClass) (list_ascii_of_string s)) as ->;
    [|done].
  induction s as [|b s IH]; [done|].
  cbn [mapChars list_ascii_of_string forallb]. by rewrite Hf, IH.
Qed.

(** X5.  The verdict of the validator does not depend on the case of the
    letters: a string, the string in upper case and the string in lower
    case get the same answer. *)
Theorem validate_ignores_case value :
  validate (mapChars asciiUpper value) = validate value /\
  validate (mapChars asciiLower value) = validate value.
Proof.
  split; apply validate_mapChars; [apply classMatch_upper | apply classMatch_lower].
Qed.

(** ** [getTemplatesDirectory] *)

Lemma removelast_rev {A} (l : list A) : removelast (rev l) = rev (tail l).
Proof. destruct l as [|a l]; [done|]. cbn [rev tail]. apply removelast_last. Qed.

Lemma join_up (cur : path) :
  join cur [".."; "src"; "templates"] =
  removelast (normalize cur) ++ ["src"; "templates"].
Proof.
  unfold join, normalize.
  change (flat_map split [".."; "src"; "templates"]) with [".."; "src"; "templates"].
  rewrite fold_left_app, removelast_rev.
  generalize (fold_left step cur []). intros A.
  change (fold_left step [".."; "src"; "templates"] A)
    with ("templates" :: "src" :: tail A).
  cbn [rev]. by rewrite <- app_assoc.
Qed.

(** X6.  [getTemplatesDirectory] makes one call, the check for the
    [templates] directory beside the running file, and returns that
    directory when it exists; otherwise it returns [src/templates] beside
    the parent of the running file's directory, without a check.  The two
    candidates are the same directory exactly when the running file is in a
    directory named [src]. *)
Theorem getTemplatesDirectory_paths env w :
  let cur := normalize (currentDirectory env) in
  let production := cur ++ ["templates"] in
  let development := removelast cur ++ ["src"; "templates"] in
  outcome_of (getTemplatesDirectory env) w =
    Ok (if Fs.existsSync (fs w) production then production else development) /\
  fs_after (getTemplatesDirectory env) w = fs w /\
  events_of (getTemplatesDirectory env) w =
    [EvExists production (Fs.existsSync (fs w) production)] /\
  (production = development <-> last cur = Some "src").
Proof.
  cbv zeta.
  assert (join (currentDirectory env) ["templates"] =
          normalize (currentDirectory env) ++ ["templates"]) as Hp.
  { apply join_plain. by repeat constructor. }
  pose proof (join_up (currentDirectory env)) as Hd.
  unfold outcome_of, fs_after, events_of, getTemplatesDirectory, existsSync, bind, ret.
  cbn beta iota zeta delta [fs log fst snd]. rewrite Hp, Hd.
  set (cur := normalize (currentDirectory env)).
  split; [by destruct (Fs.existsSync _ _)|].
  split; [by destruct (Fs.existsSync _ _)|].
  split.
  { destruct (Fs.existsSync _ _); cbn [log snd]; by rewrite drop_app_length. }
  destruct cur as [|x cur _] using rev_ind.
  - cbn. split; discriminate.
  - rewrite removelast_last, last_snoc. split.
    + rewrite <- app_assoc. intros H%app_inv_head. by injection H as ->.
    + intros [= ->]. by rewrite <- app_assoc.
Qed.

(** X6, for the sample installation run from its sources. *)
Lemma getTemplatesDirectory_paths_witness :
  normalize (currentDirectory envFromSources) ++ ["templates"] =
  removelast (normalize (currentDirectory envFromSources)) ++ ["src"; "templates"].
Proof.
  refine (proj2 (proj2 (proj2 (proj2 (getTemplatesDirectory_paths envFromSources
            (Sample.start Sample.disk))))) _).
  reflexivity.
Defined.

(** ** The runs of [createProject] *)

(** X7.  [createProject] ends the process, with exit code 1, exactly when
    the target path exists.  Otherwise it ends normally or throws; what it
    throws is the error of the call of the materialization that failed, the
    error of the install subprocess, or the error that the lock file was not
    generated, and never the error of a [git] subprocess. *)
Theorem createProject_outcomes env c w :
  let o := outcome_of (createProject env c) w in
  let P := projectPathOf env (projectName c) in
  (o = Exit 1 <-> is_Some (fs w !! P)) /\
  (o = Ok tt \/ o = Exit 1 \/
   o = Throw (ExecError "npm" ["install"]) \/
   o = Throw (JsError "package-lock.json was not generated") \/
   exists tpl op,
     op ∈ materializeCalls (templatesDirectoryIn env (fs w)) P (projectName c)
            (tsStrictness c) tpl /\
     o = Throw (FsError op) /\
     EvFs op false ∈ events_of (createProject env c) w).
Proof.
  cbv zeta. pose proof (createProject_shape env c w) as H.
  assert (forall b, Fs.existsSync (fs w) (projectPathOf env (projectName c)) = b ->
            (is_Some (fs w !! projectPathOf env (projectName c)) <-> b = true)) as Hb.
  { intros b <-. unfold Fs.existsSync. by rewrite bool_decide_eq_true. }
  destruct H as [P HP | ? ? P HP Hm | ? ? ? P HP Hm Hi | ? ? P HP Hm Hi Hg
                | ? ? ? ? P HP Hm Hi Hg Hgit]; subst P; apply Hb in HP.
  - split; [tauto|]. auto.
  - split; [split; [discriminate | intros H; apply HP in H; discriminate]|].
    do 4 right. inversion Hm as [|tpl k op Hk]; subst.
    exists tpl, op. split; [by eapply list_elem_of_lookup_2|]. split; [done|].
    do 3 apply list_elem_of_further. apply elem_of_app. left.
    apply elem_of_app. right. apply list_elem_of_here.
  - split; [split; [discriminate | intros H; apply HP in H; discriminate]|].
    inversion Hi; subst; auto.
  - split; [split; [discriminate | intros H; apply HP in H; discriminate]|]. auto.
  - split; [split; [discriminate | intros H; apply HP in H; discriminate]|]. auto.
Qed.

(** X7, at the sample installation with [/home/u/demo-app] taken. *)
Lemma createProject_outcomes_witness :
  outcome_of (createProject (Sample.envWith true true true (Sample.answers true))
                (Sample.choices true))
    (Sample.start Sample.diskTaken) = Exit 1.
Proof.
  refine (proj2 (proj1 (createProject_outcomes
            (Sample.envWith true true true (Sample.answers true))
            (Sample.choices true) (Sample.start Sample.diskTaken))) _).
  vm_compute. eexists. reflexivity.
Defined.

(** X8.  [createProject] stops at the first failure: after a file system
    call or a subprocess that failed it makes no file system call and
    starts no subprocess, only terminal output follows. *)
Theorem nothing_follows_a_failed_call env c w pre e post :
  events_of (createProject env c) w = pre ++ e :: post ->
  is_failed_call e = true ->
  Forall (fun e' => is_ui e' = true) post.
Proof.
  intros Hs He. pose proof (createProject_shape env c w) as H.
  revert Hs. created_cases H; intros Hs.
  all: split_inv Hs; try discriminate He.
  all: repeat constructor.
Qed.

(** X8, at the sample installation with [npm] failing. *)
Lemma nothing_follows_a_failed_call_witness :
  Forall (fun e' => is_ui e' = true)
    (drop 12
       (events_of (createProject (Sample.envWith false false true (Sample.answers true))
                     (Sample.choices true)) (Sample.start Sample.disk))).
Proof.
  refine (nothing_follows_a_failed_call
            (Sample.envWith false false true (Sample.answers true))
            (Sample.choices true) (Sample.start Sample.disk)
            (take 11
               (events_of (createProject
                             (Sample.envWith false false true (Sample.answers true))
                             (Sample.choices true)) (Sample.start Sample.disk)))
            (EvExec "npm" ["install"] ["home"; "u"; "demo-app"] false) _ _ _).
  - vm_compute. reflexivity.
  - reflexivity.
Defined.

(** X9.  Every subprocess [createProject] starts runs in the target
    directory and is one of [npm install], [git init], [git add .] and the
    [git commit] with the fixed message. *)
Theorem subprocesses_run_in_the_project env c w file args cwd ok :
  EvExec file args cwd ok ∈ events_of (createProject env c) w ->
  cwd = projectPathOf env (projectName c) /\ (file, args) ∈ knownCommands.
Proof.
  intros H. pose proof (createProject_shape env c w) as Hs. revert H.
  created_cases Hs; intros H; elem_inv H.
  all: try (injection H as -> -> -> ->).
  all: try (split; [reflexivity | unfold knownCommands; solve_elem]).
Qed.

(** X9, for the install subprocess of the sample installation. *)
Lemma subprocesses_run_in_the_project_witness :
  ["home"; "u"; "demo-app"] =
    projectPathOf (Sample.envWith true true true (Sample.answers true))
      (projectName (Sample.choices true)) /\
  ("npm", ["install"]) ∈ knownCommands.
Proof.
  refine (subprocesses_run_in_the_project
            (Sample.envWith true true true (Sample.answers true))
            (Sample.choices true) (Sample.start Sample.disk)
            "npm" ["install"] ["home"; "u"; "demo-app"] true _).
  apply list_elem_of_In. vm_compute.
  repeat first [ left; reflexivity | right ].
Defined.

(** X10.  The [git] commands run in their order, each after the one before
    it succeeded: [git add .] is only started after a [git init] that
    succeeded, and the commit only after both succeeded. *)
Theorem git_commands_in_order env c w :
  let evs := events_of (createProject env c) w in
  let P := projectPathOf env (projectName c) in
  (forall pre ok post,
     evs = pre ++ EvExec "git" ["add"; "."] P ok :: post ->
     [EvExec "git" ["init"] P true] `sublist_of` pre) /\
  (forall pre ok post,
     evs = pre ++ EvExec "git" gitCommit P ok :: post ->
     [EvExec "git" ["init"] P true; EvExec "git" ["add"; "."] P true]
       `sublist_of` pre).
Proof.
  cbv zeta. pose proof (createProject_shape env c w) as H.
  created_cases H.
  all: split; intros pre ok post Hs.
  all: match type of Hs with _ = _ ++ ?x :: _ => remember x as e eqn:He in Hs end.
  all: split_inv Hs; try discriminate He.
  all: solve_sublist.
Qed.

(** X10, at the sample installation: what precedes [git add .]. *)
Lemma git_commands_in_order_witness :
  [EvExec "git" ["init"]
     (projectPathOf (Sample.envWith true true true (Sample.answers true))
        (projectName (Sample.choices true))) true]
  `sublist_of`
  take 16
    (events_of (createProject (Sample.envWith true true true (Sample.answers true))
                  (Sample.choices true)) (Sample.start Sample.disk)).
Proof.
  refine (proj1 (git_commands_in_order
            (Sample.envWith true true true (Sample.answers true))
            (Sample.choices true) (Sample.start Sample.disk)) _ true
            (drop 17
               (events_of (createProject
                             (Sample.envWith true true true (Sample.answers true))
                             (Sample.choices true)) (Sample.start Sample.disk)))
            _).
  vm_compute. reflexivity.
Defined.

(** X11.  In every run of [createProject] the spinner is started and
    stopped in turn, beginning with a start, and it is stopped at the end
    of the run, also when the run ends with an error. *)
Theorem spinner_starts_and_stops_alternate env c w :
  spinnerAlternates false (events_of (createProject env c) w) = true.
Proof.
  pose proof (createProject_shape env c w) as H.
  created_cases H; reflexivity.
Qed.

Lemma templatesDirectoryIn_normal env f :
  normalize (templatesDirectoryIn env f) = templatesDirectoryIn env f.
Proof.
  unfold templatesDirectoryIn, join.
  destruct (Fs.existsSync _ _); apply normalize_idem.
Qed.

Lemma within_join base parts :
  normalize base = base -> Forall (fun s => plain s = true) parts ->
  within base (join base parts).
Proof.
  intros Hn Hp. rewrite (join_plain _ _ Hp), Hn. by apply prefix_app_r.
Qed.

(** X12.  Whatever the name is and however the run ends, every file system
    call of [createProject] writes at or below the target path, and what it
    reads or copies from is below the templates directory. *)
Theorem reads_and_writes_are_confined env c w op ok :
  EvFs op ok ∈ events_of (createProject env c) w ->
  (forall p, write_target op = Some p ->
     within (projectPathOf env (projectName c)) p) /\
  (forall p, read_source op = Some p ->
     within (templatesDirectoryIn env (fs w)) p).
Proof.
  intros H. pose proof (createProject_shape env c w) as Hs. revert H.
  pose proof (projectPathOf_normal env (projectName c)) as HP.
  pose proof (templatesDirectoryIn_normal env (fs w)) as HT.
  assert (forall t, plain (strictnessName t +:+ ".json") = true) as Ht.
  { by intros []. }
  created_cases Hs; intros H; elem_inv H.
  all: try (injection H as -> ->).
  all: split; intros p [= <-].
  all: unfold tsconfigSourcePath.
  all: apply within_join; [done|]; repeat constructor; done.
Qed.

(** X12, for the first call of the materialization at the sample
    installation. *)
Lemma reads_and_writes_are_confined_witness :
  within (projectPathOf (Sample.envWith true true true (Sample.answers true))
            (projectName (Sample.choices true)))
    ["home"; "u"; "demo-app"; "src"].
Proof.
  refine (proj1 (reads_and_writes_are_confined
            (Sample.envWith true true true (Sample.answers true))
            (Sample.choices true) (Sample.start Sample.disk)
            (OpEnsureDir ["home"; "u"; "demo-app"; "src"]) true _) _ _).
  - apply list_elem_of_In. vm_compute.
    repeat first [ left; reflexivity | right ].
  - reflexivity.
Defined.

(** ** What a run of [createProject] leaves behind *)

Lemma existsSync_absent (f : FS) p : f !! p = None -> Fs.existsSync f p = false.
Proof.
  intros H. unfold Fs.existsSync. rewrite H. apply bool_decide_eq_false.
  by intros [? ?].
Qed.

Lemma createProject_taken env c w :
  is_Some (fs w !! projectPathOf env (projectName c)) ->
  outcome_of (createProject env c) w = Exit 1.
Proof.
  intros Hex.
  assert (Fs.existsSync (fs w) (projectPathOf env (projectName c)) = true) as Hb.
  { unfold Fs.existsSync. by apply bool_decide_eq_true. }
  pose proof (createProject_shape env c w) as H.
  destruct H as [P HP | ? ? P HP _ | ? ? ? P HP _ _ | ? ? P HP _ _ _
                | ? ? ? ? P HP _ _ _ _]; subst P; congruence.
Qed.

(** What [createProject] makes of a materialization that throws. *)
Lemma createProject_not_materialized env c w e f' evs :
  fs w !! projectPathOf env (projectName c) = None ->
  (forall l,
     copyProjectFiles env (templatesDirectoryIn env (fs w))
       (projectPathOf env (projectName c)) (projectName c) (tsStrictness c)
       {| fs := fs w; log := l |} = (Throw e, {| fs := f'; log := l ++ evs |})) ->
  outcome_of (createProject env c) w = Throw e /\
  fs_after (createProject env c) w = f'.
Proof.
  intros Habs%existsSync_absent Hrun.
  unfold outcome_of, fs_after, createProject, getTemplatesDirectory,
    templatesDirectoryIn in *.
  unfold existsSync, ui, emit, bind, ret, try_catch, throw, process_exit.
  cbn beta iota zeta delta [fs log fst snd].
  destruct (Fs.existsSync (fs w) (join (currentDirectory env) ["templates"]));
    cbn beta iota zeta delta [fs log fst snd]; rewrite Habs;
    cbn beta iota zeta delta [fs log fst snd]; rewrite Hrun; done.
Qed.

(** What [createProject] does after a materialization that succeeds. *)
Lemma createProject_materialized env c w f1 evs :
  fs w !! projectPathOf env (projectName c) = None ->
  (forall l,
     copyProjectFiles env (templatesDirectoryIn env (fs w))
       (projectPathOf env (projectName c)) (projectName c) (tsStrictness c)
       {| fs := fs w; log := l |} = (Ok tt, {| fs := f1; log := l ++ evs |})) ->
  let P := projectPathOf env (projectName c) in
  let r := subprocess env "npm" ["install"] P f1 in
  let installed := r.1 && Fs.existsSync r.2 (join P ["package-lock.json"]) in
  (outcome_of (createProject env c) w = Ok tt <-> installed = true) /\
  (installed = false -> exists e, outcome_of (createProject env c) w = Throw e) /\
  (installed = false \/ initGit c = false ->
   fs_after (createProject env c) w = r.2).
Proof.
  intros Habs%existsSync_absent Hrun. cbv zeta.
  unfold outcome_of, fs_after, createProject, getTemplatesDirectory,
    templatesDirectoryIn in *.
  unfold installDependencies, initializeGitRepository.
  unfold execa, existsSync, ui, emit, bind, ret, try_catch, throw, process_exit.
  cbn beta iota zeta delta [fs log fst snd].
  destruct (Fs.existsSync (fs w) (join (currentDirectory env) ["templates"]));
    cbn beta iota zeta delta [fs log fst snd]; rewrite Habs;
    cbn beta iota zeta delta [fs log fst snd]; rewrite Hrun;
    cbn beta iota zeta delta [fs log fst snd].
  all: destruct (subprocess env "npm" ["install"] _ f1) as [[] f2];
    cbn beta iota zeta delta [fs log fst snd negb andb].
  all: try destruct (Fs.existsSync f2 _);
    cbn beta iota zeta delta [fs log fst snd negb andb].
  all: try (split; [split; [done|done]|]; split; [eauto|]; done).
  all: destruct (initGit c); cbn beta iota zeta delta [fs log fst snd negb andb].
  all: repeat call_step.
  all: split; [done|]; split; [done|]; intros [?|?]; done.
Qed.

Section Partial.
Context (env : Env) (c : UserChoices) (w : World).

Let name := projectName c.
Let P := projectPathOf env name.
Let T := templatesDirectoryIn env (fs w).
Let index := join T ["base"; "src"; "index.ts"].

Hypothesis Hname : matches_name_pattern name.
Hypothesis Habsent : fs w !! P = None.
Hypothesis Htree : tree_shaped (fs w).
Hypothesis Hcwd : fs w !! resolve (process_cwd env) [process_cwd env] = Some Dir.
Hypothesis Hfault : forall op g, io_fault env op g = false.
Hypothesis Hindex : fs w !! index = None.

(** Without the template of the entry file, the materialization makes the
  two directories and fails at the first copy. *)
Lemma materialize_without_index l :
copyProjectFiles env T P name (tsStrictness c) {| fs := fs w; log := l |} =
  (Throw (FsError (OpCopy index (P ++ ["src"; "index.ts"]))),
   {| fs := <[P ++ ["src"] := Dir]> (<[P := Dir]> (fs w));
      log := l ++ [EvFs (OpEnsureDir (P ++ ["src"])) true;
                   EvFs (OpCopy index (P ++ ["src"; "index.ts"])) false] |}).
Proof using All.
pose proof (projectPathOf_child env name Hname) as HP. fold P in HP.
set (C := resolve (process_cwd env) [process_cwd env]) in *.
assert (dirs (fs w) C) as HdC by (intros q Hq; by eapply tree_dir_prefixes).
unfold copyProjectFiles. fold index.
rewrite !(target_join env name) by (repeat constructor). fold P.
unfold ensureDir, copy, fsCall, bind.
cbn beta iota zeta delta [fs log]. rewrite !Hfault. cbn [Fs.apply].
assert (Fs.mkdirs (fs w) (P ++ ["src"]) =
        Some (<[P ++ ["src"] := Dir]> (<[P := Dir]> (fs w)))) as ->.
{ rewrite HP. rewrite <- (app_assoc C [name] ["src"]). cbn [app].
  apply mkdirs_two; [done| |].
  - by rewrite <- HP.
  - change (C ++ [name; "src"]) with (C ++ [name] ++ ["src"]).
    rewrite app_assoc, <- HP. by apply (below_target_free env name (fs w)). }
cbn beta iota zeta delta [fs log]. rewrite !Hfault. cbn [Fs.apply].
assert (Fs.copy (<[P ++ ["src"] := Dir]> (<[P := Dir]> (fs w))) index
          (P ++ ["src"; "index.ts"]) = None) as ->.
{ assert (index = (normalize T ++ ["base"; "src"]) ++ ["index.ts"]) as Hi.
  { unfold index. rewrite join_plain by (by repeat constructor).
    by rewrite <- app_assoc. }
  assert (<[P ++ ["src"] := Dir]> (<[P := Dir]> (fs w)) !! index = None) as Hnone;
    [|unfold Fs.copy; by rewrite Hnone].
  rewrite !lookup_insert_ne; [done|..]; rewrite Hi.
  - rewrite HP. apply last_differs. intros ->.
    pose proof (name_chars_lack "." _ Hname dot_not_name_char "") as Hd.
    vm_compute in Hd. discriminate Hd.
  - by apply last_differs. }
cbn beta iota zeta delta [fs log]. by rewrite <- app_assoc.
Qed.

End Partial.

(** X13.  When the template of the entry file is missing, as it is when
    neither candidate of [getTemplatesDirectory] exists, [createProject]
    throws the error of the first copy and removes nothing: the target
    directory and its [src] directory stay behind, the rest of the file
    system is as before, and a second run for the same name ends with exit
    code 1 because the directory exists. *)
Theorem missing_templates_leave_a_partial_project env c w :
  let name := projectName c in
  let P := projectPathOf env name in
  let index :=
    Path.join (templatesDirectoryIn env (fs w)) ["base"; "src"; "index.ts"] in
  matches_name_pattern name ->
  fs w !! P = None ->
  tree_shaped (fs w) ->
  fs w !! Path.resolve (process_cwd env) [process_cwd env] = Some Dir ->
  (forall op g, io_fault env op g = false) ->
  fs w !! index = None ->
  outcome_of (createProject env c) w =
    Throw (FsError (OpCopy index (P ++ ["src"; "index.ts"]))) /\
  fs_after (createProject env c) w =
    <[P ++ ["src"] := Dir]> (<[P := Dir]> (fs w)) /\
  (forall w', fs w' = fs_after (createProject env c) w ->
     outcome_of (createProject env c) w' = Exit 1).
Proof.
  intros name P index Hname Habs Htree Hcwd Hfault Hindex.
  destruct (createProject_not_materialized env c w _ _ _ Habs
              (materialize_without_index env c w Hname Habs Htree Hcwd Hfault Hindex))
    as [Ho Hf].
  split; [done|]. split; [done|].
  intros w' Hw'. apply createProject_taken. rewrite Hw', Hf.
  rewrite lookup_insert_ne by path_ne. rewrite lookup_insert_eq. by eexists.
Qed.

(** X13, at the sample installation without its templates. *)
Lemma missing_templates_leave_a_partial_project_witness :
  fs_after (createProject (Sample.envWith true true true (Sample.answers true))
              (Sample.choices true)) (Sample.start diskWithoutTemplates) =
  <[projectPathOf (Sample.envWith true true true (Sample.answers true))
      (projectName (Sample.choices true)) ++ ["src"] := Dir]>
    (<[projectPathOf (Sample.envWith true true true (Sample.answers true))
         (projectName (Sample.choices true)) := Dir]>
       (fs (Sample.start diskWithoutTemplates))).
Proof.
  refine (proj1 (proj2 (missing_templates_leave_a_partial_project
            (Sample.envWith true true true (Sample.answers true))
            (Sample.choices true) (Sample.start diskWithoutTemplates)
            _ _ _ _ _ _))).
  - apply validate_accepts. vm_compute. reflexivity.
  - vm_compute. reflexivity.
  - apply tree_shapedb_sound. vm_compute. reflexivity.
  - vm_compute. reflexivity.
  - intros op g. reflexivity.
  - vm_compute. reflexivity.
Defined.

(** X14.  For a name of the pattern, a target path that is free, a file
    system shaped as a tree in which the working directory exists, no
    outside fault and the four templates present as files, the install
    subprocess decides the outcome: [createProject] ends normally exactly
    when [npm install], run on the materialized project, exits with code
    zero and leaves a lock file, whatever [git] does, and it throws
    otherwise.  When it throws, and when git was not chosen, the file
    system is the one the install subprocess left: [createProject] removes
    nothing of the materialized project. *)
Theorem install_decides_the_outcome env c w (idx ign tpl cfg : string) :
  let name := projectName c in
  let P := projectPathOf env name in
  let T := templatesDirectoryIn env (fs w) in
  let man := Replace.replace_global PLACEHOLDER name tpl in
  let r := subprocess env "npm" ["install"] P (targetTree P idx ign man cfg (fs w)) in
  let installed := r.1 && Fs.existsSync r.2 (P ++ ["package-lock.json"]) in
  matches_name_pattern name ->
  fs w !! P = None ->
  tree_shaped (fs w) ->
  fs w !! Path.resolve (process_cwd env) [process_cwd env] = Some Dir ->
  (forall op g, io_fault env op g = false) ->
  TemplatesIn T (tsStrictness c) (fs w) idx ign tpl cfg ->
  (outcome_of (createProject env c) w = Ok tt <-> installed = true) /\
  (installed = false -> exists e, outcome_of (createProject env c) w = Throw e) /\
  (installed = false \/ initGit c = false ->
   fs_after (createProject env c) w = r.2).
Proof.
  intros name P T man r installed Hname Habs Htree Hcwd Hfault Htpl.
  pose proof (fun l =>
    materialize_run env name (tsStrictness c) T (fs w) idx ign tpl
      Hfault Hname Htree Hcwd Habs (TemplatesIn_base _ _ _ _ _ _ _ Htpl)
      cfg {| fs := fs w; log := l |} (tsconfig_template _ _ _ _ _ _ _ Htpl) eq_refl)
    as Hrun.
  pose proof (createProject_materialized env c w _ _ Habs Hrun) as H.
  cbv zeta in H.
  rewrite (target_join env (projectName c) ["package-lock.json"]) in H
    by (repeat constructor).
  exact H.
Qed.

(** X14, at the sample installation with [npm] failing. *)
Lemma install_decides_the_outcome_witness :
  exists e,
    outcome_of (createProject (Sample.envWith false false true (Sample.answers true))
                  (Sample.choices true)) (Sample.start Sample.disk) = Throw e.
Proof.
  refine (proj1 (proj2 (install_decides_the_outcome
            (Sample.envWith false false true (Sample.answers true))
            (Sample.choices true) (Sample.start Sample.disk)
            "import express" "node_modules" Sample.manifestTemplate
            "strict: true, more" _ _ _ _ _ _)) _).
  - apply validate_accepts. vm_compute. reflexivity.
  - vm_compute. reflexivity.
  - apply tree_shapedb_sound. vm_compute. reflexivity.
  - vm_compute. reflexivity.
  - intros op g. reflexivity.
  - split; vm_compute; reflexivity.
  - vm_compute. reflexivity.
Defined.

(** ** Names that [createProject] gets without the validator *)

Lemma getSubstitution_app matched before after a rest :
  Js.includes "$" a = false ->
  Replace.getSubstitution matched before after (a +:+ rest) =
  a +:+ Replace.getSubstitution matched before after rest.
Proof.
  induction a as [|c a IH]; [done|].
  intros [Hs Ha]%not_includes_cons. rewrite !append_cons.
  cbn [Replace.getSubstitution].
  destruct (decide (c = "$"%char)) as [->|_].
  - cbn in Hs. by destruct (decide _).
  - by rewrite IH.
Qed.

Lemma getSubstitution_matched matched before after a b :
  Js.includes "$" a = false -> Js.includes "$" b = false ->
  Replace.getSubstitution matched before after (a +:+ "$&" +:+ b) =
  a +:+ matched +:+ b.
Proof.
  intros Ha Hb. rewrite getSubstitution_app by done. f_equal.
  rewrite !append_cons, append_nil. cbn [Replace.getSubstitution].
  destruct (decide ("$"%char = "$"%char)); [|done].
  destruct (decide ("&"%char = "$"%char)); [done|].
  destruct (decide ("&"%char = "&"%char)); [|done].
  by rewrite getSubstitution_verbatim.
Qed.

(** Where the substituted text is the same at every match, the result is
    the pieces between the matches joined by that text. *)
Lemma replace_go_joined pat repl r str pos skip s :
  (forall before after, Replace.getSubstitution pat before after repl = r) ->
  Replace.replace_go pat repl str pos skip s =
  Js.join r (Replace.pieces_go pat skip s).
Proof.
  intros Hr. revert pos skip. induction s as [|c s IH]; intros pos skip; [done|].
  cbn [Replace.replace_go Replace.pieces_go]. destruct skip; [|apply IH].
  destruct (Js.startsWith pat (String c s)).
  - rewrite Hr. rewrite join_cons by apply pieces_go_nonempty. by rewrite IH.
  - rewrite IH. pose proof (pieces_go_nonempty pat 0 s).
    destruct (Replace.pieces_go pat 0 s) as [|seg rest]; [done|].
    by rewrite join_cons_head.
Qed.

Lemma startsWith_app_l p q r :
  Js.startsWith p q = true -> Js.startsWith p (q +:+ r) = true.
Proof.
  revert q. induction p as [|a p IH]; intros q; [done|].
  destruct q as [|b q]; [done|]. rewrite append_cons. cbn [Js.startsWith].
  destruct (decide (a = b)); [apply IH|done].
Qed.

Lemma includes_app_l p q r :
  Js.includes p q = true -> Js.includes p (q +:+ r) = true.
Proof.
  induction q as [|b q IH].
  - cbn. rewrite orb_false_r. destruct p; [|done]. intros _. by destruct r.
  - rewrite append_cons. cbn [Js.includes]. intros [H|H]%orb_true_iff.
    + rewrite <- append_cons. by rewrite startsWith_app_l.
    + rewrite (IH H). apply orb_true_r.
Qed.

(** X15.  [createProject] hands the name to [replace] as a replacement
    pattern.  A name that holds [$&] once and no other dollar sign is
    rejected by the validator; when [createProject] gets it all the same,
    each placeholder of the manifest template is replaced by the name with
    the placeholder itself in the place of [$&], so a manifest made of a
    template with a placeholder still holds the placeholder. *)
Theorem dollar_ampersand_keeps_the_placeholder a b tpl :
  Js.includes "$" a = false -> Js.includes "$" b = false ->
  let name := a +:+ "$&" +:+ b in
  validate name <> None /\
  Replace.replace_global PLACEHOLDER name tpl =
    Js.join (a +:+ PLACEHOLDER +:+ b) (Replace.pieces PLACEHOLDER tpl) /\
  (Js.includes PLACEHOLDER tpl = true ->
   Js.includes PLACEHOLDER (Replace.replace_global PLACEHOLDER name tpl) = true).
Proof.
  intros Ha Hb name.
  assert (Replace.replace_global PLACEHOLDER name tpl =
          Js.join (a +:+ PLACEHOLDER +:+ b) (Replace.pieces PLACEHOLDER tpl)) as Hout.
  { apply replace_go_joined. intros. by apply getSubstitution_matched. }
  split; [|split; [done|]].
  - intros Hv%validate_accepts.
    pose proof (name_chars_lack "$" name Hv dollar_not_name_char "") as Hd.
    unfold name in Hd.
    rewrite (includes_app_r "$" a ("$&" +:+ b)) in Hd; [done|].
    by rewrite !append_cons.
  - intros Hin. rewrite Hout.
    pose proof (pieces_go_occurrence PLACEHOLDER tpl ltac:(done) Hin) as Hlen.
    fold (Replace.pieces PLACEHOLDER tpl) in Hlen.
    destruct (Replace.pieces PLACEHOLDER tpl) as [|s1 [|s2 rest]];
      cbn [length] in Hlen; try lia.
    rewrite join_cons by done.
    apply includes_app_r, includes_app_l, includes_mid.
Qed.

(** X15, for the name [my$&] and the manifest template of the test suite. *)
Lemma dollar_ampersand_keeps_the_placeholder_witness :
  Js.includes PLACEHOLDER
    (Replace.replace_global PLACEHOLDER ("my" +:+ "$&" +:+ "")
       Sample.manifestTemplate) = true.
Proof.
  refine (proj2 (proj2 (dollar_ampersand_keeps_the_placeholder
            "my" "" Sample.manifestTemplate _ _)) _).
  - reflexivity.
  - reflexivity.
  - vm_compute. reflexivity.
Defined.

(** X16.  A name that starts with a slash is rejected by the validator;
    when [createProject] gets it all the same, the target path is that
    absolute path, normalized, whatever the working directory is. *)
Theorem absolute_name_ignores_the_working_directory env name :
  Js.startsWith "/" name = true ->
  validate name <> None /\
  projectPathOf env name = normalize (split name).
Proof.
  intros Habs. split.
  - intros Hv%validate_accepts.
    pose proof (name_chars_lack "/" name Hv slash_not_name_char "") as Hd.
    destruct name as [|ch name]; [done|]. cbn [Js.includes] in Hd.
    by rewrite Habs in Hd.
  - unfold projectPathOf, resolve. cbn [rev app resolve_go].
    destruct name as [|ch name]; [done|]. cbn [Js.truthy negb].
    unfold isAbsolute. rewrite Habs.
    rewrite split_app_sep. cbn [split]. apply normalize_snoc_empty.
Qed.

(** X16, for the name [/etc/app] at the sample installation. *)
Lemma absolute_name_ignores_the_working_directory_witness :
  projectPathOf (Sample.envWith true true true (Sample.answers true)) "/etc/app" =
  normalize (split "/etc/app").
Proof.
  refine (proj2 (absolute_name_ignores_the_working_directory
            (Sample.envWith true true true (Sample.answers true)) "/etc/app" _)).
  reflexivity.
Defined.
